(** * Trading_Bot.py: a shallow embedding and its properties

    The script wires third-party venue libraries into five small classes.
    This file embeds them ([EntropyHarvester], [FIXEngine], [MT5Bridge],
    [AdaptiveKelly], [QuantumTradingSystem]) with the program's entry block
    and states what their methods do.

    Python [float] is IEEE 754 binary64 with round-to-nearest-even, which is
    what Rocq's primitive floats are, so the arithmetic of
    [AdaptiveKelly.calculate] is embedded bit for bit.  A second embedding of
    the same two lines over the rationals gives the value the formula has
    without rounding.  The bounds on the binary64 result are derived from
    the definition of rounding in [SpecFloat], read against the real
    numbers. *)

From Stdlib Require Import Reals Lra.
From Stdlib Require Import ZArith QArith Qminmax Lia Lqa.
From Stdlib Require Import Floats.
From stdpp Require Import base option list gmap strings.

Set Warnings "-inexact-float".
#[local] Open Scope Z_scope.

(** ** The Python runtime, as far as the script uses it *)

(** Exception classes the script raises or meets.  [CancelledError],
    [KeyboardInterrupt], [SystemExit] and [GeneratorExit] derive from
    [BaseException] only; every other class derives from [Exception]. *)
Inductive PyExc : Type :=
| ZeroDivisionError
| NameError (name : string)
| AttributeError (attr : string)
| ConnectionError (msg : string)
| FieldNotFound (tag : Z)
| CancelledError
| KeyboardInterrupt
| SystemExit
| GeneratorExit
| OtherException (cls : string).

(** [isinstance(e, Exception)]: what an [except Exception] clause catches. *)
Definition isinstance_Exception (e : PyExc) : bool :=
  match e with
  | CancelledError | KeyboardInterrupt | SystemExit | GeneratorExit => false
  | _ => true
  end.

(** The two ways a call ends. *)
Inductive outcome (A : Type) : Type :=
| Ok (a : A)
| Raise (e : PyExc).
Arguments Ok {A} a.
Arguments Raise {A} e.

(** A method over a mutable object of type [S]: it ends in a value or an
    exception, and the mutations made before an exception stay. *)
Definition Py (S A : Type) : Type := S -> outcome A * S.

Definition py_ret {S A} (a : A) : Py S A := fun s => (Ok a, s).

Definition py_raise {S A} (e : PyExc) : Py S A := fun s => (Raise e, s).

Definition py_bind {S A B} (m : Py S A) (k : A -> Py S B) : Py S B :=
  fun s => match m s with
           | (Ok a, s') => k a s'
           | (Raise e, s') => (Raise e, s')
           end.

Definition py_gets {S A} (f : S -> A) : Py S A := fun s => (Ok (f s), s).

Definition py_modify {S} (f : S -> S) : Py S unit := fun s => (Ok tt, f s).

Definition py_lift {S A} (o : outcome A) : Py S A := fun s => (o, s).

Declare Scope py_scope.
Delimit Scope py_scope with py.
Notation "'let*' x := m 'in' k" := (py_bind m (fun x => k))
  (at level 10, x name, m at level 100, k at level 200) : py_scope.
Notation "m ;; k" := (py_bind m (fun _ => k))
  (at level 100, k at level 200, right associativity) : py_scope.

(** Python values that cross the boundary to the untyped libraries. *)
Inductive PyVal : Type :=
| PyNone
| PyBool (b : bool)
| PyInt (n : Z)
| PyFloat (x : float)
| PyStr (s : string).

(** [a / b] on floats: CPython raises when the divisor compares equal to
    zero (either sign), and divides otherwise, also for infinities and NaN. *)
Definition truediv (a b : float) : outcome float :=
  if (b =? 0)%float then Raise ZeroDivisionError else Ok (a / b)%float.

(** [max(a, b)]: the first argument stays unless the second is greater. *)
Definition py_max (a b : float) : float :=
  if (a <? b)%float then b else a.

(** Two classes of binary64 values, read off the sign bit: what does not
    compare greater than zero (NaN, both zeros, the negatives), and what
    does (the positives, infinity included). *)
Definition sf_not_positive (x : spec_float) : bool :=
  match x with
  | S754_nan | S754_zero _ => true
  | S754_infinity s | S754_finite s _ _ => s
  end.

Definition sf_positive (x : spec_float) : bool :=
  match x with
  | S754_infinity s | S754_finite s _ _ => negb s
  | _ => false
  end.

(** Powers of two as real numbers, to speak of the value of a binary64
    number and of what rounding does to it. *)
Definition bpow (e : Z) : R := powerRZ 2 e.

(** [x] is not above the real number [C]: it is not positive at all, or it
    is a positive finite number of value at most [C]. *)
Definition sf_below (x : spec_float) (C : R) : Prop :=
  sf_not_positive x = true \/
  exists m e, x = S754_finite false m e /\ (IZR (Z.pos m) * bpow e <= C)%R.

(** The real numbers [k * 2^g] with [k] of at most 53 bits, in the range of
    binary64: the finite non-negative values of the format, and 0. *)
Definition on_grid (C : R) : Prop :=
  exists k g : Z,
    C = (IZR k * bpow g)%R /\ (0 <= k <= 2 ^ 53)%Z /\ (-1074 <= g)%Z /\
    (C < bpow 1024)%R.

(** A valid binary64 number of [0, 1]. *)
Definition sf_unit (x : spec_float) : Prop :=
  match x with
  | S754_zero _ => True
  | S754_finite false m e =>
      SpecFloat.bounded prec emax m e = true /\ (IZR (Z.pos m) * bpow e <= 1)%R
  | _ => False
  end.

(** The exact number a shift record stands for: [X] lies in
    [[m, m+1)], and the two bits say where. *)
Definition inb (X : R) (r : shr_record) : Prop :=
  (0 <= shr_m r)%Z /\
  match shr_r r, shr_s r with
  | false, false => X = IZR (shr_m r)
  | false, true => (IZR (shr_m r) < X < IZR (shr_m r) + / 2)%R
  | true, false => X = (IZR (shr_m r) + / 2)%R
  | true, true => (IZR (shr_m r) + / 2 < X < IZR (shr_m r) + 1)%R
  end.

(** The rational a finite binary64 value stands for, in lowest terms. *)
Definition float_to_Q (x : float) : option Q :=
  match Prim2SF x with
  | S754_zero _ => Some 0%Q
  | S754_finite s m e =>
      Some (Qred ((if s then -1 else 1) * (Zpos m # 1) * Qpower 2 e)%Q)
  | _ => None
  end.

(** [d.get(k, default)] *)
Definition dict_get {V} (d : gmap string V) (k : string) (dflt : V) : V :=
  match d !! k with
  | Some v => v
  | None => dflt
  end.

(** ** class AdaptiveKelly *)
Module AdaptiveKelly.

(** The class attribute. *)
Definition RISK_PROFILES : gmap string float :=
  <["conservative" := 0.25%float]>
    (<["moderate" := 0.5%float]>
       (<["aggressive" := 1.0%float]> ∅)).

(** What [self.] reaches: the class attribute and the instance attribute
    [multiplier], absent until [__init__] has run. *)
Record t : Type := mk {
  cls_RISK_PROFILES : gmap string float;
  multiplier : option float
}.

Definition fresh : t :=
  {| cls_RISK_PROFILES := RISK_PROFILES; multiplier := None |}.

Definition set_multiplier (m : float) (self : t) : t :=
  {| cls_RISK_PROFILES := cls_RISK_PROFILES self; multiplier := Some m |}.

Definition get_multiplier : Py t float :=
  fun self => match multiplier self with
              | Some m => (Ok m, self)
              | None => (Raise (AttributeError "multiplier"), self)
              end.

(** [def __init__(self, profile="moderate")] *)
Definition __init__ (profile : string) : Py t unit :=
  (let* profiles := py_gets cls_RISK_PROFILES in
   py_modify (set_multiplier (dict_get profiles profile 0.5%float)))%py.

Definition default_profile : string := "moderate".

(** [AdaptiveKelly(profile)]: a fresh instance, then [__init__]. *)
Definition new (profile : string) : outcome t :=
  match __init__ profile fresh with
  | (Ok _, self) => Ok self
  | (Raise e, _) => Raise e
  end.

(** [def calculate(self, win_prob, win_loss_ratio)] *)
Definition calculate (win_prob win_loss_ratio : float) : Py t float :=
  (let* raw_kelly := py_lift (truediv (win_prob * (win_loss_ratio + 1) - 1)%float
                                     win_loss_ratio) in
   let* m := get_multiplier in
   py_ret (py_max 0.01%float (raw_kelly * m)%float))%py.

(** The same two lines with exact rational arithmetic in place of binary64:
    the value the formula has before any rounding. *)
Definition q_max (a b : Q) : Q := if Qle_bool b a then a else b.

Definition calculate_exact (multiplier win_prob win_loss_ratio : Q) : outcome Q :=
  if Qeq_bool win_loss_ratio 0 then Raise ZeroDivisionError
  else
    let raw_kelly := ((win_prob * (win_loss_ratio + 1) - 1) / win_loss_ratio)%Q in
    Ok (q_max (1 # 100) (raw_kelly * multiplier)%Q).

End AdaptiveKelly.

(** The spec's words for the sizing step, to compare the method with:
    the Kelly fraction [f = (p*(b+1) - 1) / b] and the named presets. *)
Module RiskSizerSpec.

(** The Kelly fraction, as the number the formula denotes. *)
Definition kelly_exact (p b : Q) : Q := ((p * (b + 1) - 1) / b)%Q.

(** The formula evaluated in binary64, rounding after each of its four
    operations: an abbreviation for the expression of [calculate]. *)
Definition kelly_fraction (p b : float) : float := ((p * (b + 1) - 1) / b)%float.

Definition named_preset (profile : string) : option float :=
  if String.eqb profile "conservative" then Some 0.25%float
  else if String.eqb profile "moderate" then Some 0.5%float
  else if String.eqb profile "aggressive" then Some 1.0%float
  else None.

(** The presets as the rationals the spec writes. *)
Definition named_preset_exact (profile : string) : option Q :=
  if String.eqb profile "conservative" then Some (1 # 4)%Q
  else if String.eqb profile "moderate" then Some (1 # 2)%Q
  else if String.eqb profile "aggressive" then Some 1%Q
  else None.

(** A valid signal: [p] in [0,1] and [b > 0], as binary64 comparisons. *)
Definition valid_signal (p b : float) : Prop :=
  (0 <=? p)%float = true /\ (p <=? 1)%float = true /\ (0 <? b)%float = true.

End RiskSizerSpec.

(** ** class EntropyHarvester *)
Module EntropyHarvester.

(** The instance: [self.pool] and [self.last_refresh], the latter in
    microseconds, the resolution of [datetime]. *)
Record t : Type := mk {
  pool : list Byte.byte;
  last_refresh : Z
}.

(** What [feed] reaches outside the object.  [quantumrandom.binary(64)]
    answers the i-th request with some bytes; [datetime.now()] gives the
    k-th reading of the clock; the [await] of the i-th iteration may raise
    into the coroutine.  The module imports neither [os] nor [hashlib]:
    each is bound only if a star import binds it, [None] stands for unbound.
    [os_urandom i n] is [os.urandom(n)] in iteration [i]. *)
Record Env : Type := mkEnv {
  binary : nat -> list Byte.byte;
  os_urandom : option (nat -> nat -> list Byte.byte);
  hashlib_sha3_256 : option (list Byte.byte -> list Byte.byte);
  now : nat -> Z;
  sleep : nat -> option PyExc
}.

(** The state a method runs over: the object, and how many times the clock
    has been read. *)
Definition World : Type := (t * nat)%type.

(** [timedelta(minutes=5)] *)
Definition five_minutes : Z := 5 * 60 * 1000000.

Definition datetime_now (env : Env) : Py World Z :=
  fun w => (Ok (now env (snd w)), (fst w, S (snd w))).

Definition pool_extend (bs : list Byte.byte) : Py World unit :=
  py_modify (fun w =>
    ({| pool := pool (fst w) ++ bs; last_refresh := last_refresh (fst w) |}, snd w)).

Definition set_pool (bs : list Byte.byte) : Py World unit :=
  py_modify (fun w =>
    ({| pool := bs; last_refresh := last_refresh (fst w) |}, snd w)).

Definition set_last_refresh (at_ : Z) : Py World unit :=
  py_modify (fun w => ({| pool := pool (fst w); last_refresh := at_ |}, snd w)).

Definition global_os (env : Env) : Py World (nat -> nat -> list Byte.byte) :=
  match os_urandom env with
  | Some urandom => py_ret urandom
  | None => py_raise (NameError "os")
  end.

Definition global_hashlib (env : Env) : Py World (list Byte.byte -> list Byte.byte) :=
  match hashlib_sha3_256 env with
  | Some sha3_256 => py_ret sha3_256
  | None => py_raise (NameError "hashlib")
  end.

Definition await_sleep (env : Env) (i : nat) : Py World unit :=
  match sleep env i with
  | Some e => py_raise e
  | None => py_ret tt
  end.

(** [def __init__(self)] *)
Definition __init__ (env : Env) : Py World unit :=
  (set_pool [] ;;
   let* t0 := datetime_now env in
   set_last_refresh t0)%py.

(** [EntropyHarvester()] on a clock not read before. *)
Definition new (env : Env) : World :=
  snd (__init__ env ({| pool := []; last_refresh := 0 |}, 0%nat)).

(** The body of the [while True] of [feed], iteration [i]. *)
Definition iteration (env : Env) (i : nat) : Py World unit :=
  (pool_extend (binary env i) ;;
   (let* urandom := global_os env in
    pool_extend (urandom i 64%nat)) ;;
   (let* t1 := datetime_now env in
    let* last := py_gets (fun w => last_refresh (fst w)) in
    if (five_minutes <? t1 - last)%Z then
      (let* sha3_256 := global_hashlib env in
       let* gathered := py_gets (fun w => pool (fst w)) in
       set_pool (sha3_256 gathered)) ;;
      (let* t2 := datetime_now env in
       set_last_refresh t2)
    else py_ret tt) ;;
   await_sleep env i)%py.

(** [async def feed(self)] from iteration [i] on, for [fuel] iterations:
    [None] while it is still looping, the exception that ended it otherwise. *)
Fixpoint feed (env : Env) (fuel i : nat) (w : World) : option PyExc * World :=
  match fuel with
  | O => (None, w)
  | S fuel' =>
      match iteration env i w with
      | (Ok _, w') => feed env fuel' (S i) w'
      | (Raise e, w') => (Some e, w')
      end
  end.

(** The bytes one iteration gathers when [os] is bound. *)
Definition gathered (env : Env) (urandom : nat -> nat -> list Byte.byte)
    (i : nat) : list Byte.byte :=
  binary env i ++ urandom i 64%nat.

(** An outside to run [feed] against: blocks of zero bytes, a digest of 32
    zero bytes, a clock that advances [tick] microseconds per reading, no
    cancellation; [os] and [hashlib] bound or not. *)
Definition ticking (os_bound hashlib_bound : bool) (tick : Z) : Env :=
  {| binary := fun _ => repeat Byte.x00 64;
     os_urandom := if os_bound then Some (fun _ n => repeat Byte.x00 n) else None;
     hashlib_sha3_256 :=
       if hashlib_bound then Some (fun _ => repeat Byte.x00 32) else None;
     now := fun k => (Z.of_nat k * tick)%Z;
     sleep := fun _ => None |}.

End EntropyHarvester.

(** ** class FIXEngine(Application) *)
Module FIXEngine.

(** A quickfix message as the handler touches it: the header is read with
    [getHeader().getField(tag)], the body is written with [setField]. *)
Record Message : Type := mkMessage {
  header : gmap Z string;
  body : gmap Z PyVal
}.

(** What the two free names of [toAdmin] resolve to.  The module has no
    [import os] and the class body defines no [_encrypt]: [os] is bound only
    if a star import binds it, [self._encrypt] only if the base class
    [Application] has such an attribute.  [None] stands for unbound. *)
Record Env : Type := mkEnv {
  os_getenv : option (string -> PyVal);
  inherited_encrypt : option (PyVal -> outcome PyVal)
}.

(** The bindings the source file itself provides. *)
Definition as_written : Env :=
  {| os_getenv := None; inherited_encrypt := None |}.

Definition getHeader_getField (tag : Z) : Py Message string :=
  fun message => match header message !! tag with
                 | Some v => (Ok v, message)
                 | None => (Raise (FieldNotFound tag), message)
                 end.

(** [message.setField(tag, value)], as a store of the value under the tag.
    quickfix takes a string here and raises on any other value ([None]
    included); that check is not followed, and what is proved of a
    completed logon below is stated for string values. *)
Definition setField (tag : Z) (v : PyVal) : Py Message unit :=
  py_modify (fun message =>
    {| header := header message; body := <[tag := v]> (body message) |}).

Definition global_os (env : Env) : Py Message (string -> PyVal) :=
  match os_getenv env with
  | Some getenv => py_ret getenv
  | None => py_raise (NameError "os")
  end.

Definition self_encrypt (env : Env) : Py Message (PyVal -> outcome PyVal) :=
  match inherited_encrypt env with
  | Some f => py_ret f
  | None => py_raise (AttributeError "_encrypt")
  end.

(** [def toAdmin(self, message, sessionID)].  In the second call the callee
    [self._encrypt] is looked up before its argument is evaluated. *)
Definition toAdmin (env : Env) (sessionID : string) : Py Message unit :=
  (let* msg_type := getHeader_getField 35 in
   if String.eqb msg_type "A" then
     (let* getenv := global_os env in
      setField 553 (getenv "FIX_USERNAME")) ;;
     (let* encrypt := self_encrypt env in
      let* getenv := global_os env in
      let* secret := py_lift (encrypt (getenv "FIX_PASSWORD")) in
      setField 554 secret)
   else py_ret tt)%py.

(** The quickfix constructors [__init__] calls, each by the exception it
    raises, if any. *)
Record Quickfix : Type := mkQuickfix {
  SessionSettings : string -> option PyExc;
  FileStoreFactory : option PyExc;
  FileLogFactory : option PyExc;
  SocketInitiator : option PyExc
}.

(** The instance holds [self.initiator]. *)
Inductive t : Type := Engine.

(** [def __init__(self)]: the four constructors in the order written. *)
Definition __init__ (quickfix : Quickfix) : outcome t :=
  match SessionSettings quickfix "fix_config.cfg" with
  | Some e => Raise e
  | None =>
      match FileStoreFactory quickfix with
      | Some e => Raise e
      | None =>
          match FileLogFactory quickfix with
          | Some e => Raise e
          | None =>
              match SocketInitiator quickfix with
              | Some e => Raise e
              | None => Ok Engine
              end
          end
      end
  end.

(** [onCreate], [onLogon], [onLogout] over the lines printed so far. *)
Definition onCreate (sessionID : string) : Py (list string) unit := py_ret tt.

Definition onLogon (sessionID : string) : Py (list string) unit :=
  py_modify (fun out => out ++ ["FIX Session " +:+ sessionID +:+ " established"]).

Definition onLogout (sessionID : string) : Py (list string) unit :=
  py_modify (fun out => out ++ ["FIX Session " +:+ sessionID +:+ " terminated"]).

End FIXEngine.

(** ** class MT5Bridge *)
Module MT5Bridge.

(** What [mt5.order_send] hands back: a result structure or [None]. *)
Inductive SendResult : Type :=
| OrderSendResult (retcode : Z)
| NoResult.

(** The [MetaTrader5] module: the answer of [initialize()], two constants,
    and [order_send], which answers a request after some time (milliseconds). *)
Record Terminal : Type := mkTerminal {
  initialize : bool;
  TRADE_ACTION_DEAL : Z;
  ORDER_TIME_GTC : Z;
  order_send : gmap string PyVal -> N * SendResult
}.

(** [quantumrandom.uint16(array_length=100)]: a web request; the time it
    takes and the array of numbers it returns, [array_length] of them. *)
Record Quantum : Type := mkQuantum {
  uint16 : nat -> N * list Z
}.

(** [int(a)] on an array: an array of one element converts to that element,
    any other raises [TypeError]. *)
Definition int_of_array (a : list Z) : outcome Z :=
  match a with
  | [n] => Ok n
  | _ => Raise (OtherException "TypeError")
  end.

(** The instance carries no attribute. *)
Inductive t : Type := Bridge.

(** [def __init__(self)] behind [MT5Bridge()] *)
Definition __init__ (mt5 : Terminal) : outcome t :=
  if negb (initialize mt5)
  then Raise (ConnectionError "MT5 Terminal Not Connected")
  else Ok Bridge.

(** A synchronous call made from a coroutine: the thread that runs the event
    loop stays in it until it answers.  The state is that thread's clock. *)
Definition blocking_call {A} (answer : N * A) : Py N A :=
  fun now => (Ok (snd answer), (now + fst answer)%N).

(** The dictionary literal of [execute], keys in the order written. *)
Definition request (mt5 : Terminal) (magic : Z)
    (symbol : string) (volume : float) (order_type : Z) : gmap string PyVal :=
  <["type_time" := PyInt (ORDER_TIME_GTC mt5)]>
    (<["comment" := PyStr "QTS v5.0 Execution"]>
       (<["magic" := PyInt magic]>
          (<["deviation" := PyInt 10]>
             (<["type" := PyInt order_type]>
                (<["volume" := PyFloat volume]>
                   (<["symbol" := PyStr symbol]>
                      (<["action" := PyInt (TRADE_ACTION_DEAL mt5)]> ∅))))))).

(** [async def execute(self, symbol, volume, order_type)]: the body has no
    [await], so it runs from start to end without yielding.  The calls
    inside the literal come first: [quantumrandom.uint16()] with its default
    length, then [int] of the array; [mt5.order_send] is reached only if
    both return. *)
Definition execute (mt5 : Terminal) (quantumrandom : Quantum) (self : t)
    (symbol : string) (volume : float) (order_type : Z) : Py N SendResult :=
  (let* drawn := blocking_call (uint16 quantumrandom 100%nat) in
   let* magic := py_lift (int_of_array drawn) in
   blocking_call (order_send mt5 (request mt5 magic symbol volume order_type)))%py.

(** The random-number service as documented: it answers after [delay]
    milliseconds with as many numbers as were asked for. *)
Definition slow_quantum (delay : N) : Quantum :=
  {| uint16 := fun array_length => (delay, repeat 7 array_length) |}.

(** Two terminals to run the bridge against: one that is up and answers
    every request after [delay] milliseconds with [retcode], one that is
    down. *)
Definition slow_terminal (delay : N) (retcode : Z) : Terminal :=
  {| initialize := true;
     TRADE_ACTION_DEAL := 1;
     ORDER_TIME_GTC := 0;
     order_send := fun _ => (delay, OrderSendResult retcode) |}.


End MT5Bridge.

(** ** class QuantumTradingSystem *)
Module QuantumTradingSystem.

(** Names the class body defines, and the attributes [__init__] sets. *)
Definition class_dict : list string := ["__init__"; "run"].
Definition instance_dict : list string := ["entropy"; "fix"; "mt5"; "risk"].

Definition hasattr (name : string) : bool :=
  bool_decide (name ∈ instance_dict ++ class_dict).

(** What [run] does to the outside. *)
Inductive Event : Type :=
| TaskCreated (coroutine : string)
| InitiatorStarted
| Slept
| Called (attr : string) (arg : PyExc).

(** The outside: whether [initiator.start()] raises, and what the [await] of
    the i-th iteration raises into the coroutine, if anything. *)
Record Env : Type := mkEnv {
  initiator_start : option PyExc;
  sleep : nat -> option PyExc
}.

(** [run] has no [return] and no [break]: it is still looping or it has let an
    exception out. *)
Inductive RunResult : Type :=
| StillRunning
| Propagated (e : PyExc).

(** The [while True] loop from iteration [i] on, for [fuel] iterations. *)
Fixpoint main_loop (env : Env) (fuel i : nat) (trace : list Event)
  : RunResult * list Event :=
  match fuel with
  | O => (StillRunning, trace)
  | S fuel' =>
      match sleep env i with
      | None => main_loop env fuel' (S i) (trace ++ [Slept])
      | Some e =>
          if isinstance_Exception e then
            if hasattr "_emergency_shutdown"
            then main_loop env fuel' (S i) (trace ++ [Called "_emergency_shutdown" e])
            else (Propagated (AttributeError "_emergency_shutdown"), trace)
          else (Propagated e, trace)
      end
  end.

(** [async def run(self)] *)
Definition run (env : Env) (fuel : nat) : RunResult * list Event :=
  match initiator_start env with
  | Some e => (Propagated e, [TaskCreated "feed"])
  | None => main_loop env fuel 0 [TaskCreated "feed"; InitiatorStarted]
  end.

(** Two courses of events: the third sleep fails with an ordinary error;
    the task is cancelled during the first sleep. *)
Definition third_sleep_fails : Env :=
  {| initiator_start := None;
     sleep := fun i => if Nat.eqb i 2 then Some (OtherException "RuntimeError")
                       else None |}.

Definition cancelled_at_once : Env :=
  {| initiator_start := None; sleep := fun _ => Some CancelledError |}.

(** The instance: the four components [__init__] builds ([fix_] is
    [self.fix]). *)
Record t : Type := mkSystem {
  entropy : EntropyHarvester.World;
  fix_ : FIXEngine.t;
  mt5 : MT5Bridge.t;
  risk : AdaptiveKelly.t
}.

(** [def __init__(self, risk_profile="moderate")]: the components in the
    order written; the first constructor that raises ends it. *)
Definition __init__ (clock : EntropyHarvester.Env) (quickfix : FIXEngine.Quickfix)
    (terminal : MT5Bridge.Terminal) (risk_profile : string) : outcome t :=
  let entropy := EntropyHarvester.new clock in
  match FIXEngine.__init__ quickfix with
  | Raise e => Raise e
  | Ok fix_ =>
      match MT5Bridge.__init__ terminal with
      | Raise e => Raise e
      | Ok mt5 =>
          match AdaptiveKelly.new risk_profile with
          | Raise e => Raise e
          | Ok risk => Ok (mkSystem entropy fix_ mt5 risk)
          end
      end
  end.

(** The [if __name__ == "__main__"] block. *)
Definition main (clock : EntropyHarvester.Env) (quickfix : FIXEngine.Quickfix)
    (terminal : MT5Bridge.Terminal) (env : Env) (fuel : nat)
  : RunResult * list Event :=
  match __init__ clock quickfix terminal "aggressive" with
  | Raise e => (Propagated e, [])
  | Ok qts => run env fuel
  end.

End QuantumTradingSystem.

(** * Properties *)

(** ** binary64 comparisons *)
Section FloatOrder.
#[local] Open Scope float_scope.

Lemma Prim2SF_zero : Prim2SF 0 = S754_zero false.
Proof. reflexivity. Qed.

Lemma ltb_zero_neq (b : float) : (0 <? b) = true -> (b =? 0) = false.
Proof.
  rewrite FloatAxioms.ltb_spec, FloatAxioms.eqb_spec, Prim2SF_zero.
  unfold SFltb, SFeqb.
  destruct (Prim2SF b) as [s|s| |s m e]; try destruct s; simpl; congruence.
Qed.

Lemma ltb_leb (a b : float) : (a <? b) = true -> (a <=? b) = true.
Proof.
  rewrite FloatAxioms.ltb_spec, FloatAxioms.leb_spec. unfold SFltb, SFleb.
  destruct (SFcompare (Prim2SF a) (Prim2SF b)) as [[]|]; congruence.
Qed.

Lemma py_max_floor (x : float) : (0.01 <=? py_max 0.01 x) = true.
Proof.
  unfold py_max. destruct (0.01 <? x) eqn:H.
  - now apply ltb_leb.
  - reflexivity.
Qed.

Lemma py_max_positive (x : float) : (0 <? py_max 0.01 x) = true.
Proof.
  unfold py_max. destruct (0.01 <? x) eqn:H; [|reflexivity].
  rewrite FloatAxioms.ltb_spec in *. rewrite Prim2SF_zero.
  change (Prim2SF 0.01) with (S754_finite false 5764607523034235 (-59)) in H.
  unfold SFltb in *.
  destruct (Prim2SF x) as [s|s| |s m e]; try destruct s; simpl in *; congruence.
Qed.

End FloatOrder.

(** ** AdaptiveKelly: construction and the shape of [calculate] *)
Section KellyFacts.
Import AdaptiveKelly RiskSizerSpec.
#[local] Open Scope float_scope.

(** The class dictionary read with [.get(profile, 0.5)] is the preset table
    with 0.5 for every other name. *)
Lemma RISK_PROFILES_get (profile : string) :
  dict_get RISK_PROFILES profile 0.5 =
  match named_preset profile with Some m => m | None => 0.5 end.
Proof.
  unfold named_preset, dict_get, RISK_PROFILES.
  destruct (String.eqb_spec profile "conservative") as [->|Hc]; [reflexivity|].
  rewrite lookup_insert_ne by congruence.
  destruct (String.eqb_spec profile "moderate") as [->|Hm]; [reflexivity|].
  rewrite lookup_insert_ne by congruence.
  destruct (String.eqb_spec profile "aggressive") as [->|Ha]; [reflexivity|].
  rewrite lookup_insert_ne by congruence.
  now rewrite lookup_empty.
Qed.

Lemma new_eq (profile : string) :
  new profile = Ok (set_multiplier (dict_get RISK_PROFILES profile 0.5) fresh).
Proof. reflexivity. Qed.

Lemma calculate_nonzero (p b m : float) (self : t) :
  multiplier self = Some m -> (b =? 0) = false ->
  calculate p b self = (Ok (py_max 0.01 (kelly_fraction p b * m)), self).
Proof.
  intros Hm Hb.
  unfold calculate, py_bind, py_lift, truediv, get_multiplier, py_ret, kelly_fraction.
  now rewrite Hb, Hm.
Qed.

Lemma calculate_zero (p b : float) (self : t) :
  (b =? 0) = true -> calculate p b self = (Raise ZeroDivisionError, self).
Proof.
  intros Hb. unfold calculate, py_bind, py_lift, truediv. now rewrite Hb.
Qed.

End KellyFacts.

(** ** The formula without rounding *)
Section ExactKelly.
Import AdaptiveKelly.
#[local] Open Scope Q_scope.

Lemma q_max_lower (a b : Q) : a <= q_max a b.
Proof.
  unfold q_max. destruct (Qle_bool b a) eqn:H.
  - apply Qle_refl.
  - apply Qlt_le_weak, Qnot_le_lt. rewrite <- Qle_bool_iff. congruence.
Qed.

Lemma q_max_upper (a b c : Q) : a <= c -> b <= c -> q_max a b <= c.
Proof. unfold q_max. now destruct (Qle_bool b a). Qed.

Lemma raw_kelly_exact_le_1 (p b : Q) :
  0 <= p <= 1 -> 0 < b -> (p * (b + 1) - 1) / b <= 1.
Proof.
  intros [Hp0 Hp1] Hb. apply Qle_shift_div_r; [exact Hb|]. nra.
Qed.

Lemma calculate_exact_range (m p b : Q) :
  0 < m <= 1 -> 0 <= p <= 1 -> 0 < b ->
  exists q, calculate_exact m p b = Ok q /\ 1 # 100 <= q <= 1.
Proof.
  intros [Hm0 Hm1] Hp Hb. unfold calculate_exact.
  destruct (Qeq_bool b 0) eqn:Hz.
  - apply Qeq_bool_eq in Hz. rewrite Hz in Hb. now apply Qlt_irrefl in Hb.
  - eexists. split; [reflexivity|]. split; [apply q_max_lower|].
    apply q_max_upper; [lra|].
    pose proof (raw_kelly_exact_le_1 p b Hp Hb) as Hr.
    set (r := (p * (b + 1) - 1) / b) in *. clearbody r. nra.
Qed.

End ExactKelly.

(** ** AdaptiveKelly: the claims *)
Section KellyClaims.
Import AdaptiveKelly RiskSizerSpec.
#[local] Open Scope float_scope.

(** C1 as stated fails: the result can pass 1.  With the aggressive preset
    and [p = 1.0], the sum [b + 1] is rounded before 1 is taken off again:
    for [b = 1e-15] the method returns 1.1102230246251565, eleven percent
    above full equity, for [b = 0.1] it returns 1.0000000000000009, and
    for [b] just over [2^-53], where [b + 1] rounds up to [1 + 2^-52], it
    returns 1.9999999999999996. *)
Lemma calculate_exceeds_full_equity :
  named_preset "aggressive" = Some 1.0 /\
  valid_signal 1 1e-15 /\ valid_signal 1 0.1 /\
  valid_signal 1 0x1.0000000000001p-53 /\
  exists self,
    new "aggressive" = Ok self /\
    calculate 1 1e-15 self = (Ok 1.1102230246251565, self) /\
    (1.1102230246251565 <=? 1) = false /\
    calculate 1 0.1 self = (Ok 1.0000000000000009, self) /\
    (1.0000000000000009 <=? 1) = false /\
    calculate 1 0x1.0000000000001p-53 self = (Ok 1.9999999999999996, self) /\
    (1.9999999999999996 <=? 1) = false.
Proof.
  split; [reflexivity|]. split; [repeat split|]. split; [repeat split|].
  split; [repeat split|].
  eexists. split; [apply new_eq|]. repeat split.
Qed.

(** C2, as amended.  The method validates nothing.  Its only failure is
    [ZeroDivisionError], raised exactly when [win_loss_ratio] compares equal
    to zero; on every other input, negative ratios and probabilities outside
    [0,1] included, it returns a fraction of at least 0.01. *)
Theorem calculate_fails_only_on_zero_ratio (profile : string) (p b : float) :
  exists self,
    new profile = Ok self /\
    ((b =? 0) = true -> calculate p b self = (Raise ZeroDivisionError, self)) /\
    ((b =? 0) = false ->
       exists r, calculate p b self = (Ok r, self) /\ (0.01 <=? r) = true).
Proof.
  eexists. split; [apply new_eq|]. split.
  - apply calculate_zero.
  - intros Hb. eexists. split.
    + now apply calculate_nonzero.
    + apply py_max_floor.
Qed.

Lemma calculate_fails_only_on_zero_ratio_witness :
  exists self,
    new "moderate" = Ok self /\
    calculate 0.5 (-0) self = (Raise ZeroDivisionError, self) /\
    exists r, calculate 0.5 (-1) self = (Ok r, self) /\ (0.01 <=? r) = true.
Proof.
  destruct (calculate_fails_only_on_zero_ratio "moderate" 0.5 (-0))
    as (self & Hnew & Hzero & _).
  exists self. split; [exact Hnew|]. split; [now apply Hzero|].
  destruct (calculate_fails_only_on_zero_ratio "moderate" 0.5 (-1))
    as (self' & Hnew' & _ & Hother).
  assert (self' = self) as -> by congruence.
  now apply Hother.
Defined.

(** C2 as stated fails: a negative ratio and a probability of 2 are both
    sized, and a zero ratio ends in [ZeroDivisionError], the only exception
    the method has. *)
Lemma calculate_accepts_invalid_signal :
  exists self,
    new "moderate" = Ok self /\
    ((-1 <=? 0) = true /\ calculate 0.5 (-1) self = (Ok 0.5, self)) /\
    ((2 <=? 1) = false /\ calculate 2 1 self = (Ok 1.5, self)) /\
    ((0 <=? 0) = true /\ calculate 0.5 0 self = (Raise ZeroDivisionError, self)).
Proof.
  eexists. split; [apply new_eq|]. repeat split.
Qed.

(** C3, as amended.  For a valid signal and a named preset, the method
    evaluates the formula [(p*(b+1) - 1) / b] in binary64, each of the four
    operations rounded, so what it computes is the Kelly fraction up to
    rounding and not exactly; it multiplies that by the preset's multiplier,
    which is exactly 0.25 for conservative, 0.5 for moderate and 1.0 for
    aggressive, and only then applies its one bound, the floor 0.01.  The
    same steps in exact arithmetic give the floor applied to exactly the
    Kelly fraction times the multiplier. *)
Theorem calculate_is_rounded_scaled_kelly
    (profile : string) (m : float) (mq : Q) (p b : float) (pq bq : Q) :
  named_preset profile = Some m ->
  named_preset_exact profile = Some mq ->
  valid_signal p b ->
  (0 <= pq <= 1)%Q -> (0 < bq)%Q ->
  float_to_Q m = Some mq /\
  (exists self r,
      new profile = Ok self /\
      multiplier self = Some m /\
      calculate p b self = (Ok r, self) /\
      let scaled := ((p * (b + 1) - 1) / b * m)%float in
      ((0.01 <? scaled) = true -> r = scaled) /\
      ((0.01 <? scaled) = false -> r = 0.01)) /\
  (exists q,
      calculate_exact mq pq bq = Ok q /\
      let scaled := (kelly_exact pq bq * mq)%Q in
      ((1 # 100 < scaled)%Q -> (q == scaled)%Q) /\
      ((scaled <= 1 # 100)%Q -> (q == 1 # 100)%Q)).
Proof.
  intros Hm Hmq (_ & _ & Hb) Hp Hbq. split; [|split].
  - unfold named_preset in Hm. unfold named_preset_exact in Hmq.
    repeat match type of Hm with
           | (if ?c then _ else _) = _ => destruct c
           end; inversion Hm; inversion Hmq; subst; reflexivity.
  - eexists _, _. split; [apply new_eq|].
    assert (Hmul : multiplier (set_multiplier (dict_get RISK_PROFILES profile 0.5) fresh)
                   = Some m).
    { simpl. now rewrite RISK_PROFILES_get, Hm. }
    split; [exact Hmul|]. split.
    + apply calculate_nonzero; [exact Hmul | now apply ltb_zero_neq].
    + unfold py_max, kelly_fraction. cbv zeta.
      destruct (0.01 <? (p * (b + 1) - 1) / b * m); split; congruence.
  - unfold calculate_exact, kelly_exact, q_max.
    destruct (Qeq_bool bq 0) eqn:Hz.
    { apply Qeq_bool_eq in Hz. rewrite Hz in Hbq. now apply Qlt_irrefl in Hbq. }
    eexists. split; [reflexivity|]. cbv zeta.
    destruct (Qle_bool _ (1 # 100)) eqn:Hle.
    + apply Qle_bool_iff in Hle. split; [|reflexivity].
      intros Hgt. exfalso. apply (Qlt_irrefl (1 # 100)).
      eapply Qlt_le_trans; eassumption.
    + split; [reflexivity|]. intros Hle'. apply Qle_bool_iff in Hle'. congruence.
Qed.

Lemma calculate_is_rounded_scaled_kelly_witness :
  float_to_Q 0.25 = Some (1 # 4)%Q /\
  (exists self r,
      new "conservative" = Ok self /\
      multiplier self = Some 0.25 /\
      calculate 0.6 2 self = (Ok r, self) /\
      let scaled := ((0.6 * (2 + 1) - 1) / 2 * 0.25)%float in
      ((0.01 <? scaled) = true -> r = scaled) /\
      ((0.01 <? scaled) = false -> r = 0.01)) /\
  (exists q,
      calculate_exact (1 # 4) (6 # 10) 2 = Ok q /\
      let scaled := (kelly_exact (6 # 10) 2 * (1 # 4))%Q in
      ((1 # 100 < scaled)%Q -> (q == scaled)%Q) /\
      ((scaled <= 1 # 100)%Q -> (q == 1 # 100)%Q)).
Proof.
  apply (calculate_is_rounded_scaled_kelly "conservative" 0.25 (1 # 4) 0.6 2).
  - reflexivity.
  - reflexivity.
  - repeat split.
  - split; discriminate.
  - reflexivity.
Defined.

(** C3 as stated fails: the fraction is not computed exactly.  At the valid
    signal [p = 0.6], [b = 2] with the aggressive preset, where scaling by
    1.0 and the floor change nothing, the value returned differs from the
    Kelly fraction of the two arguments, both read as the binary64 numbers
    they are and read as the decimals 0.6 and 2.  The difference is not
    always in the last place: at [p = 1], [b = 1e-17] the Kelly fraction is
    exactly 1, but [b + 1] rounds to 1, the numerator to 0, and the method
    returns the floor 0.01. *)
Lemma kelly_fraction_is_rounded :
  valid_signal 0.6 2 /\ valid_signal 1 1e-17 /\
  exists self r pq bq rq bq',
    new "aggressive" = Ok self /\
    calculate 0.6 2 self = (Ok r, self) /\
    float_to_Q 0.6 = Some pq /\ float_to_Q 2 = Some bq /\
    float_to_Q r = Some rq /\
    ~ (rq == kelly_exact pq bq * 1)%Q /\
    ~ (rq == kelly_exact (6 # 10) 2 * 1)%Q /\
    calculate 1 1e-17 self = (Ok 0.01, self) /\
    float_to_Q 1e-17 = Some bq' /\
    (kelly_exact 1 bq' * 1 == 1)%Q.
Proof.
  split; [repeat split|]. split; [repeat split|].
  eexists _, _, _, _, _, _. split; [apply new_eq|].
  split; [reflexivity|]. split; [reflexivity|]. split; [reflexivity|].
  split; [reflexivity|].
  split; [intros H; apply Qeq_bool_iff in H; vm_compute in H; discriminate H|].
  split; [intros H; apply Qeq_bool_iff in H; vm_compute in H; discriminate H|].
  split; [reflexivity|]. split; [reflexivity|].
  apply Qeq_bool_iff. vm_compute. reflexivity.
Qed.

(** C4, as amended.  For [p = 0.6], [b = 2] and the aggressive preset the
    method returns the binary64 number 0.39999999999999991, whose exact value
    is [2/5 - 1/(5 * 2^51)]: the product [0.6 * 3] is a tie and rounds down.
    In exact arithmetic the fraction is 2/5 and 100000 times it is 40000.
    The method takes no equity and computes no notional. *)
Theorem calculate_scenario_aggressive :
  (exists self,
      new "aggressive" = Ok self /\
      calculate 0.6 2 self = (Ok 0.39999999999999991, self)) /\
  float_to_Q 0.39999999999999991 =
    Some (Qred ((2 # 5) - (1 # (5 * 2 ^ 51)))%Q) /\
  (exists q, calculate_exact 1 (6 # 10) 2 = Ok q /\
             (q == 2 # 5)%Q /\ (q * 100000 == 40000)%Q).
Proof.
  split; [|split].
  - eexists. split; [apply new_eq | reflexivity].
  - vm_compute. reflexivity.
  - eexists. split; [reflexivity|]. split; reflexivity.
Qed.

(** C4 as stated fails: the fraction returned is not the binary64 number
    0.40, and 100000 times it is not 40000. *)
Lemma calculate_scenario_not_exact :
  exists self r,
    new "aggressive" = Ok self /\
    calculate 0.6 2 self = (Ok r, self) /\
    (r =? 0.40) = false /\
    (r * 100000 =? 40000) = false.
Proof.
  eexists _, _. split; [apply new_eq|]. repeat split.
Qed.

(** C5.  [calculate] reads [self.multiplier] and writes nothing: the object
    is the same after the call, and two calls with the same multiplier,
    probability and ratio end the same way, whatever else the objects hold. *)
Theorem calculate_pure (p b : float) (self1 self2 : t) :
  multiplier self1 = multiplier self2 ->
  fst (calculate p b self1) = fst (calculate p b self2) /\
  snd (calculate p b self1) = self1.
Proof.
  intros H.
  unfold calculate, py_bind, py_lift, get_multiplier, py_ret.
  rewrite H.
  destruct (truediv _ b); [|now split].
  destruct (multiplier self2); now split.
Qed.

Lemma calculate_pure_witness :
  fst (calculate 0.6 2 (mk ∅ (Some 0.5))) =
  fst (calculate 0.6 2 (mk RISK_PROFILES (Some 0.5))) /\
  snd (calculate 0.6 2 (mk ∅ (Some 0.5))) = mk ∅ (Some 0.5).
Proof.
  apply (calculate_pure 0.6 2 (mk ∅ (Some 0.5)) (mk RISK_PROFILES (Some 0.5))).
  reflexivity.
Defined.

(** C9.  Construction succeeds for every profile string, and a string that
    is none of the three preset names gives the object that "moderate"
    gives, with multiplier 0.5. *)
Theorem init_unknown_profile_is_moderate (profile : string) :
  (exists self, new profile = Ok self) /\
  (profile <> "conservative" -> profile <> "moderate" ->
   profile <> "aggressive" ->
   new profile = new "moderate" /\
   exists self, new profile = Ok self /\ multiplier self = Some 0.5).
Proof.
  split; [eexists; apply new_eq|].
  intros Hc Hm Ha.
  assert (Hget : dict_get RISK_PROFILES profile 0.5 = 0.5).
  { rewrite RISK_PROFILES_get. unfold named_preset.
    destruct (String.eqb_spec profile "conservative"); [contradiction|].
    destruct (String.eqb_spec profile "moderate"); [contradiction|].
    destruct (String.eqb_spec profile "aggressive"); [contradiction|].
    reflexivity. }
  rewrite !new_eq, Hget. split; [reflexivity|].
  eexists. split; reflexivity.
Qed.

Lemma init_unknown_profile_is_moderate_witness :
  new "reckless" = new "moderate" /\
  exists self, new "reckless" = Ok self /\ multiplier self = Some 0.5.
Proof.
  apply (proj2 (init_unknown_profile_is_moderate "reckless")); discriminate.
Defined.

End KellyClaims.

(** ** FIXEngine.toAdmin *)
Section ToAdmin.
Import FIXEngine.

(** X4.  A message of any type other than "A" passes through untouched and
    without error, whatever [os] and [_encrypt] resolve to. *)
Lemma toAdmin_other_type (env : Env) (sessionID msg_type : string) (message : Message) :
  header message !! 35 = Some msg_type -> msg_type <> "A" ->
  toAdmin env sessionID message = (Ok tt, message).
Proof.
  intros H35 Hty. unfold toAdmin, py_bind, getHeader_getField. rewrite H35.
  destruct (String.eqb_spec msg_type "A"); [contradiction | reflexivity].
Qed.

(** X6.  With both names bound, [FIX_USERNAME] set, so that [os.getenv]
    returns a string, and an [_encrypt] that returns a string, a logon
    message gets field 553 from [FIX_USERNAME] and field 554 from the
    encrypted [FIX_PASSWORD]; the header and the rest of the body stay. *)
Lemma toAdmin_logon_bound (getenv : string -> PyVal) (encrypt : PyVal -> outcome PyVal)
    (username secret : string) (sessionID : string) (message : Message) :
  header message !! 35 = Some "A" ->
  getenv "FIX_USERNAME" = PyStr username ->
  encrypt (getenv "FIX_PASSWORD") = Ok (PyStr secret) ->
  toAdmin (mkEnv (Some getenv) (Some encrypt)) sessionID message =
  (Ok tt, {| header := header message;
             body := <[554 := PyStr secret]>
                       (<[553 := PyStr username]> (body message)) |}).
Proof.
  intros H35 Huser Henc.
  unfold toAdmin, py_bind, getHeader_getField, global_os, self_encrypt,
    setField, py_modify, py_lift, py_ret. simpl.
  rewrite H35. simpl. now rewrite Henc, Huser.
Qed.

(** X5.  Whatever the names resolve to and however the handler ends, it
    leaves the header and every body field other than 553 and 554 as they
    were. *)
Lemma toAdmin_frame (env : Env) (sessionID : string) (message : Message) (tag : Z) :
  tag <> 553 -> tag <> 554 ->
  header (snd (toAdmin env sessionID message)) = header message /\
  body (snd (toAdmin env sessionID message)) !! tag = body message !! tag.
Proof.
  intros H553 H554.
  unfold toAdmin, py_bind, getHeader_getField, global_os, self_encrypt,
    setField, py_modify, py_lift, py_ret, py_raise.
  destruct env as [[getenv|] [encrypt|]]; simpl;
    destruct (header message !! 35) as [ty|]; simpl; try (split; reflexivity);
    destruct (String.eqb ty "A"); simpl; try (split; reflexivity);
    try destruct (encrypt (getenv "FIX_PASSWORD")); simpl;
    (split; [reflexivity|]);
    repeat rewrite lookup_insert_ne by congruence; reflexivity.
Qed.

(** C6, at the failing input.  The class body defines no [_encrypt]; unless
    the base class supplies one, a logon message makes the handler raise,
    [NameError] on [os] or [AttributeError] on [_encrypt], and field 554 is
    left as it was. *)
Theorem toAdmin_logon_raises (env : Env) (sessionID : string) (message : Message) :
  header message !! 35 = Some "A" ->
  inherited_encrypt env = None ->
  exists e,
    fst (toAdmin env sessionID message) = Raise e /\
    (e = NameError "os" \/ e = AttributeError "_encrypt") /\
    body (snd (toAdmin env sessionID message)) !! 554 = body message !! 554.
Proof.
  intros H35 Henc.
  unfold toAdmin, py_bind, getHeader_getField, global_os, self_encrypt,
    setField, py_modify, py_lift, py_ret, py_raise.
  rewrite H35, Henc. simpl.
  destruct (os_getenv env) as [getenv|]; simpl.
  - exists (AttributeError "_encrypt"). repeat split; [now right|].
    now rewrite lookup_insert_ne.
  - exists (NameError "os"). repeat split. now left.
Qed.

Lemma toAdmin_logon_raises_witness :
  exists e,
    fst (toAdmin as_written "FIX.4.4:QTS->CEX"
           (mkMessage {[ 35 := "A" ]} ∅)) = Raise e /\
    (e = NameError "os" \/ e = AttributeError "_encrypt") /\
    body (snd (toAdmin as_written "FIX.4.4:QTS->CEX"
                 (mkMessage {[ 35 := "A" ]} ∅))) !! 554 = (∅ : gmap Z PyVal) !! 554.
Proof.
  apply (toAdmin_logon_raises as_written "FIX.4.4:QTS->CEX"
           (mkMessage {[ 35 := "A" ]} ∅)); reflexivity.
Defined.

(** As the file stands, [os] is unbound too: the first statement of the
    logon branch raises and the message is not touched at all. *)
Lemma toAdmin_logon_as_written (sessionID : string) (message : Message) :
  header message !! 35 = Some "A" ->
  toAdmin as_written sessionID message = (Raise (NameError "os"), message).
Proof.
  intros H35. unfold toAdmin, py_bind, getHeader_getField. now rewrite H35.
Qed.

End ToAdmin.

(** ** MT5Bridge *)
Section Bridge.
Import MT5Bridge.
#[local] Open Scope N_scope.



(** C8, as amended.  [execute] sets no deadline and produces no timeout
    result.  The event-loop thread is held for as long as the random-number
    request takes, however long that is; then, unless the array drawn has
    exactly one element, [int] raises and the terminal is never asked, and
    if it has one element the thread is held further for as long as
    [mt5.order_send] takes, whose answer is returned as it is.  With the
    hundred numbers the default call returns, [execute] always ends in
    [TypeError] and sends no order. *)
Theorem execute_holds_thread_without_deadline (mt5 : Terminal)
    (quantumrandom : Quantum) (symbol : string) (volume : float)
    (order_type : Z) (now : N) :
  let drawn := uint16 quantumrandom 100%nat in
  let done := execute mt5 quantumrandom Bridge symbol volume order_type now in
  now + fst drawn <= snd done /\
  (forall deadline, deadline < fst drawn -> now + deadline < snd done) /\
  match snd drawn with
  | [magic] =>
      let sent := order_send mt5 (request mt5 magic symbol volume order_type) in
      done = (Ok (snd sent), now + fst drawn + fst sent)
  | _ => done = (Raise (OtherException "TypeError"), now + fst drawn)
  end /\
  (length (snd drawn) = 100%nat ->
   done = (Raise (OtherException "TypeError"), now + fst drawn)).
Proof.
  intros drawn done. subst done.
  unfold execute, py_bind, blocking_call, py_lift, int_of_array. fold drawn.
  destruct (snd drawn) as [|magic [|second rest]]; simpl;
    (split; [lia|]); (split; [intros deadline Hlate; lia|]);
    (split; [reflexivity|]); intros Hlen; try reflexivity; discriminate Hlen.
Qed.

Lemma execute_holds_thread_without_deadline_witness :
  0 + 5000 <
  snd (execute (slow_terminal 20 10009) (slow_quantum 5001) Bridge
               "EURUSD" 0.1%float 0%Z 0).
Proof.
  apply (proj1 (proj2 (execute_holds_thread_without_deadline
                         (slow_terminal 20 10009) (slow_quantum 5001)
                         "EURUSD" 0.1%float 0%Z 0))).
  reflexivity.
Defined.

(** C8 as stated fails: no deadline bounds the call.  Against any proposed
    deadline, a random-number service that answers one millisecond later
    holds the thread past it, and what [execute] then ends in is not a
    timeout but the [TypeError] of [int] on the hundred numbers drawn. *)
Lemma execute_has_no_deadline :
  (~ exists deadline : N,
       forall mt5 quantumrandom symbol volume order_type now,
         snd (execute mt5 quantumrandom Bridge symbol volume order_type now)
         <= now + deadline) /\
  (forall deadline : N,
     execute (slow_terminal 20 10009) (slow_quantum (deadline + 1)) Bridge
             "EURUSD" 0.1%float 0%Z 0
     = (Raise (OtherException "TypeError"), deadline + 1)).
Proof.
  split.
  - intros [deadline H].
    specialize (H (slow_terminal 20 10009) (slow_quantum (deadline + 1))
                  "EURUSD" 0.1%float 0%Z 0).
    simpl in H. lia.
  - intros deadline. unfold execute, py_bind, blocking_call. simpl. f_equal.
Qed.

End Bridge.

(** ** QuantumTradingSystem.run *)
Section Run.
Import QuantumTradingSystem.

Lemma hasattr_emergency_shutdown : hasattr "_emergency_shutdown" = false.
Proof. reflexivity. Qed.

(** Iterations whose [await] returns only add to the trace. *)
Lemma main_loop_sleeps (env : Env) (n fuel i : nat) (trace : list Event) :
  (forall j, (j < n)%nat -> sleep env (i + j) = None) ->
  main_loop env (n + fuel) i trace =
  main_loop env fuel (i + n) (trace ++ repeat Slept n).
Proof.
  revert i trace. induction n as [|n IH]; intros i trace Hs.
  - simpl. now rewrite Nat.add_0_r, app_nil_r.
  - simpl. pose proof (Hs 0%nat ltac:(lia)) as H0. rewrite Nat.add_0_r in H0.
    rewrite H0, IH.
    + rewrite <- app_assoc. simpl. f_equal. lia.
    + intros j Hj. replace (S i + j)%nat with (i + S j)%nat by lia.
      apply Hs. lia.
Qed.

(** C10, as amended.  When an iteration's [await] raises an instance of
    [Exception], the handler looks up [self._emergency_shutdown], which
    neither the class nor the instance has, so [AttributeError] leaves the
    loop and [run]; nothing is called, the trace holds the two start-up
    steps and the sleeps that went well. *)
Theorem run_handler_raises_AttributeError (env : Env) (n fuel : nat) (e : PyExc) :
  initiator_start env = None ->
  (forall i, (i < n)%nat -> sleep env i = None) ->
  sleep env n = Some e ->
  isinstance_Exception e = true ->
  (n < fuel)%nat ->
  run env fuel =
  (Propagated (AttributeError "_emergency_shutdown"),
   [TaskCreated "feed"; InitiatorStarted] ++ repeat Slept n).
Proof.
  intros Hstart Hok Hraise Hexc Hfuel. unfold run. rewrite Hstart.
  replace fuel with (n + S (fuel - S n))%nat by lia.
  rewrite main_loop_sleeps by (intros j Hj; now apply Hok).
  simpl. now rewrite Hraise, Hexc.
Qed.

Lemma run_handler_raises_AttributeError_witness :
  run third_sleep_fails 5 =
  (Propagated (AttributeError "_emergency_shutdown"),
   [TaskCreated "feed"; InitiatorStarted; Slept; Slept]).
Proof.
  apply (run_handler_raises_AttributeError third_sleep_fails 2 5
           (OtherException "RuntimeError")).
  - reflexivity.
  - intros [|[|i]] Hi; [reflexivity | reflexivity | lia].
  - reflexivity.
  - reflexivity.
  - lia.
Defined.

(** C10 as stated fails for exceptions that are not instances of
    [Exception]: a cancellation raised by the [await] passes the handler by
    and leaves [run] as it is. *)
Lemma run_cancelled_bypasses_handler :
  sleep cancelled_at_once 0 = Some CancelledError /\
  run cancelled_at_once 1 =
  (Propagated CancelledError, [TaskCreated "feed"; InitiatorStarted]) /\
  CancelledError <> AttributeError "_emergency_shutdown".
Proof. repeat split. discriminate. Qed.

(** Without an exception the loop goes on for as long as it is given. *)
Lemma run_still_running (env : Env) (fuel : nat) :
  initiator_start env = None ->
  (forall i, sleep env i = None) ->
  run env fuel =
  (StillRunning, [TaskCreated "feed"; InitiatorStarted] ++ repeat Slept fuel).
Proof.
  intros Hstart Hs. unfold run. rewrite Hstart.
  replace fuel with (fuel + 0)%nat at 1 by lia.
  now rewrite main_loop_sleeps by (intros; apply Hs).
Qed.

End Run.

(** ** binary64: signs, NaN and the two zeros *)
Section FloatSigns.
#[local] Open Scope float_scope.

Lemma ltb_zero_positive (x : float) : (0 <? x) = sf_positive (Prim2SF x).
Proof.
  rewrite FloatAxioms.ltb_spec, Prim2SF_zero. unfold SFltb.
  destruct (Prim2SF x) as [s|s| |s m e]; try destruct s; reflexivity.
Qed.

Lemma ltb_zero_not_positive (x : float) :
  (0 <? x) = false -> sf_not_positive (Prim2SF x) = true.
Proof.
  rewrite ltb_zero_positive.
  destruct (Prim2SF x) as [s|s| |s m e]; try destruct s; simpl; congruence.
Qed.

(** Rounding keeps the sign it is given. *)
Lemma round_negative (m e : Z) (l : location) :
  sf_not_positive (binary_round_aux prec emax true m e l) = true.
Proof.
  unfold binary_round_aux.
  destruct (shr_fexp prec emax m e l) as [mrs e'].
  destruct (shr_fexp prec emax _ e' loc_Exact) as [mrs' e''].
  destruct (shr_m mrs'); [reflexivity| |reflexivity].
  destruct (Z.leb e'' (emax - prec)); reflexivity.
Qed.

Lemma div_not_positive (x y : spec_float) :
  sf_not_positive x = true -> sf_positive y = true ->
  sf_not_positive (SF64div x y) = true.
Proof.
  unfold SF64div, SFdiv.
  destruct x as [sx|sx| |sx mx ex], y as [sy|sy| |sy my ey]; simpl;
    try congruence; try (destruct sx, sy; simpl; congruence).
  intros -> Hy. destruct sy; [discriminate|]. simpl.
  destruct (SFdiv_core_binary prec emax (Z.pos mx) ex (Z.pos my) ey) as [[mz ez] lz].
  apply round_negative.
Qed.

Lemma mul_not_positive (x y : spec_float) :
  sf_not_positive x = true -> sf_positive y = true ->
  sf_not_positive (SF64mul x y) = true.
Proof.
  unfold SF64mul, SFmul.
  destruct x as [sx|sx| |sx mx ex], y as [sy|sy| |sy my ey]; simpl;
    try congruence; try (destruct sx, sy; simpl; congruence).
  intros -> Hy. destruct sy; [discriminate|]. simpl. apply round_negative.
Qed.

Lemma not_positive_below_floor (r : float) :
  sf_not_positive (Prim2SF r) = true -> (0.01 <? r) = false.
Proof.
  rewrite FloatAxioms.ltb_spec.
  change (Prim2SF 0.01) with (S754_finite false 5764607523034235 (-59)).
  unfold SFltb.
  destruct (Prim2SF r) as [s|s| |s m e]; simpl; try reflexivity;
    intros ->; reflexivity.
Qed.

Lemma SFcompare_refl (x : spec_float) :
  x <> S754_nan -> SFcompare x x = Some Eq.
Proof.
  destruct x as [s|s| |s m e]; simpl; try congruence.
  - destruct s; reflexivity.
  - intros _. rewrite Z.compare_refl.
    assert (PosDef.Pos.compare_cont Eq m m = Eq) as -> by apply Pos.compare_refl.
    destruct s; reflexivity.
Qed.

(** What is at least some number is a number. *)
Lemma leb_not_nan (a r : float) : (a <=? r) = true -> (r =? r) = true.
Proof.
  rewrite FloatAxioms.leb_spec, FloatAxioms.eqb_spec. unfold SFleb, SFeqb.
  intros H. rewrite SFcompare_refl; [reflexivity|].
  intros Hn. rewrite Hn in H. destruct (Prim2SF a); discriminate.
Qed.

(** Only the two zeros compare equal to zero. *)
Lemma eqb_zero_cases (b : float) : (b =? 0) = true <-> b = 0 \/ b = (-0).
Proof.
  split.
  - rewrite FloatAxioms.eqb_spec, Prim2SF_zero. unfold SFeqb.
    intros H. rewrite <- (SF2Prim_Prim2SF b).
    destruct (Prim2SF b) as [s|s| |s m e]; try destruct s; simpl in H;
      try discriminate.
    + now right.
    + now left.
  - intros [->| ->]; reflexivity.
Qed.

(** Every constructor argument leaves a positive multiplier. *)
Lemma multiplier_positive (profile : string) :
  (0 <? dict_get AdaptiveKelly.RISK_PROFILES profile 0.5) = true.
Proof.
  rewrite RISK_PROFILES_get. unfold RiskSizerSpec.named_preset.
  repeat match goal with |- context [if ?c then _ else _] => destruct c end;
    reflexivity.
Qed.

End FloatSigns.

(** ** Rounding to nearest in binary64, against the real numbers *)
Section Bpow.
Import Lra.
#[local] Open Scope R_scope.

Lemma bpow_pos (e : Z) : 0 < bpow e.
Proof. apply powerRZ_lt. lra. Qed.

Lemma bpow_add (a b : Z) : bpow (a + b) = bpow a * bpow b.
Proof. apply powerRZ_add. lra. Qed.

Lemma bpow_0 : bpow 0 = 1.
Proof. reflexivity. Qed.

Lemma bpow_1 : bpow 1 = 2.
Proof. unfold bpow. simpl. lra. Qed.

Lemma bpow_opp (a : Z) : bpow (- a) = / bpow a.
Proof.
  pose proof (bpow_pos a) as Ha.
  assert (H : bpow (- a) * bpow a = 1).
  { rewrite <- bpow_add. now replace (- a + a)%Z with 0%Z by lia. }
  apply (Rmult_eq_reg_r (bpow a)); [|lra]. rewrite H. field. lra.
Qed.

Lemma bpow_IZR (n : Z) : (0 <= n)%Z -> bpow n = IZR (2 ^ n).
Proof.
  intros Hn. unfold bpow. destruct n as [|p|p]; try lia; [reflexivity|].
  symmetry. apply (Zpower_pos_powerRZ 2 p).
Qed.

Lemma bpow_lt (a b : Z) : (a < b)%Z -> bpow a < bpow b.
Proof.
  intros H. replace b with (a + (b - a))%Z by lia. rewrite bpow_add.
  assert (1 < bpow (b - a)).
  { rewrite bpow_IZR by lia. apply IZR_lt. apply Z.pow_gt_1; lia. }
  pose proof (bpow_pos a). nra.
Qed.

Lemma bpow_m1 : bpow (-1) = / 2.
Proof. change (-1)%Z with (- (1))%Z. now rewrite bpow_opp, bpow_1. Qed.

Lemma bpow_le (a b : Z) : (a <= b)%Z -> bpow a <= bpow b.
Proof.
  intros H. destruct (Z.eq_dec a b) as [->|Hne]; [lra|].
  apply Rlt_le, bpow_lt. lia.
Qed.

Lemma bpow_lt_inv (a b : Z) : bpow a < bpow b -> (a < b)%Z.
Proof.
  intros H. destruct (Z_lt_le_dec a b) as [Hl|Hl]; [exact Hl|].
  apply bpow_le in Hl. lra.
Qed.

Lemma bpow_le_inv (a b : Z) : bpow a <= bpow b -> (a <= b)%Z.
Proof.
  intros H. destruct (Z_lt_le_dec b a) as [Hl|Hl]; [|exact Hl].
  apply bpow_lt in Hl. lra.
Qed.
End Bpow.

Section Digits.
Import Lra.
#[local] Open Scope R_scope.

Lemma digits2_size (p : positive) : digits2_pos p = Pos.size p.
Proof. induction p; simpl; congruence. Qed.

Lemma digits_bounds (p : positive) :
  bpow (Z.pos (digits2_pos p) - 1) <= IZR (Z.pos p) < bpow (Z.pos (digits2_pos p)).
Proof.
  rewrite digits2_size.
  pose proof (Pos.size_gt p) as Hgt. pose proof (Pos.size_le p) as Hle.
  apply Pos2Z.pos_lt_pos in Hgt. apply Pos2Z.pos_le_pos in Hle.
  rewrite Pos2Z.inj_pow in Hgt, Hle.
  rewrite !bpow_IZR by lia. split.
  - apply IZR_le.
    assert (H2 : (2 ^ Z.pos (Pos.size p) = 2 * 2 ^ (Z.pos (Pos.size p) - 1))%Z).
    { rewrite <- Z.pow_succ_r by lia. f_equal. lia. }
    lia.
  - now apply IZR_lt.
Qed.

Lemma IZR_xO (p : positive) : IZR (Z.pos p~0) = 2 * IZR (Z.pos p).
Proof. rewrite Pos2Z.inj_xO, mult_IZR. reflexivity. Qed.

Lemma IZR_xI (p : positive) : IZR (Z.pos p~1) = 2 * IZR (Z.pos p) + 1.
Proof. rewrite Pos2Z.inj_xI, plus_IZR, mult_IZR. reflexivity. Qed.

End Digits.

Section Shift.
Import Lra.
#[local] Open Scope R_scope.

Lemma shr_1_inb (X : R) (r : shr_record) : inb X r -> inb (X / 2) (shr_1 r).
Proof.
  destruct r as [m rb sb]. unfold inb, shr_1.
  cbn [shr_m shr_r shr_s]. intros [Hm H].
  destruct m as [|[p|p|]|p]; try lia; cbn [shr_m shr_r shr_s];
    (split; [lia|]).
  - destruct rb, sb; cbn [orb] in *; lra.
  - rewrite IZR_xI in H. destruct rb, sb; cbn [orb] in *; lra.
  - rewrite IZR_xO in H. destruct rb, sb; cbn [orb] in *; lra.
  - destruct rb, sb; cbn [orb] in *; lra.
Qed.

Lemma iter_shr_inb (n : positive) (X : R) (r : shr_record) :
  inb X r -> inb (X * bpow (- Z.pos n)) (SpecFloat.iter_pos shr_1 n r).
Proof.
  revert X r. induction n as [n IH|n IH|]; intros X r H; cbn [SpecFloat.iter_pos].
  - apply shr_1_inb in H. apply IH, IH in H.
    replace (X * bpow (- Z.pos n~1)) with (X / 2 * bpow (- Z.pos n) * bpow (- Z.pos n));
      [exact H|].
    replace (- Z.pos n~1)%Z with (-1 + (- Z.pos n + - Z.pos n))%Z by lia.
    rewrite !bpow_add, bpow_m1. field.
  - apply IH, IH in H.
    replace (X * bpow (- Z.pos n~0)) with (X * bpow (- Z.pos n) * bpow (- Z.pos n));
      [exact H|].
    replace (- Z.pos n~0)%Z with (- Z.pos n + - Z.pos n)%Z by lia.
    rewrite !bpow_add. ring.
  - apply shr_1_inb in H.
    replace (X * bpow (- (1))) with (X / 2); [exact H|].
    rewrite bpow_opp, bpow_1. field.
Qed.

(** [shr] by [n] places: the exponent moves up by [n] when [n > 0]. *)
Lemma shr_inb (X : R) (r : shr_record) (e n : Z) :
  inb X r ->
  inb (X * bpow (e - snd (shr r e n))) (fst (shr r e n)) /\
  snd (shr r e n) = (e + Z.max n 0)%Z.
Proof.
  intros H. unfold shr. destruct n as [|p|p]; cbn [fst snd].
  - rewrite Z.sub_diag, bpow_0, Rmult_1_r. split; [exact H|lia].
  - split; [|lia].
    replace (e - (e + Z.pos p))%Z with (- Z.pos p)%Z by lia.
    now apply iter_shr_inb.
  - rewrite Z.sub_diag, bpow_0, Rmult_1_r. split; [exact H|lia].
Qed.

Lemma inb_of_loc_exact (m : Z) :
  (0 <= m)%Z -> inb (IZR m) (shr_record_of_loc m loc_Exact).
Proof. intros H. split; [exact H|reflexivity]. Qed.

(** What the record holds is within a half of the rounded mantissa. *)
Lemma round_nearest_even_near (X : R) (r : shr_record) :
  inb X r ->
  (0 <= round_nearest_even (shr_m r) (loc_of_shr_record r))%Z /\
  X - / 2 <= IZR (round_nearest_even (shr_m r) (loc_of_shr_record r)) <= X + / 2.
Proof.
  destruct r as [m rb sb]. unfold inb. cbn [shr_m shr_r shr_s]. intros [Hm H].
  destruct rb, sb; cbn [loc_of_shr_record round_nearest_even].
  - rewrite plus_IZR. split; [lia|lra].
  - destruct (Z.even m); [|rewrite plus_IZR]; (split; [lia|lra]).
  - split; [lia|lra].
  - split; [lia|lra].
Qed.

(** The mantissa of a record is the integer part. *)
Lemma inb_floor (X : R) (r : shr_record) :
  inb X r -> (0 <= shr_m r)%Z /\ IZR (shr_m r) <= X < IZR (shr_m r) + 1.
Proof.
  destruct r as [m rb sb]. unfold inb. cbn [shr_m shr_r shr_s]. intros [Hm H].
  split; [exact Hm|]. destruct rb, sb; lra.
Qed.

End Shift.

Section Round.
Import Lra.
#[local] Open Scope R_scope.

Lemma fexp_eq (e : Z) : fexp prec emax e = Z.max (e - 53) (-1074).
Proof. reflexivity. Qed.

Lemma shr_m_of_loc (m : Z) (l : location) : shr_m (shr_record_of_loc m l) = m.
Proof. destruct l as [|[]]; reflexivity. Qed.

Lemma Zdigits2_bounds (m : Z) :
  (0 < m)%Z -> bpow (Zdigits2 m - 1) <= IZR m < bpow (Zdigits2 m).
Proof. destruct m as [|p|p]; try lia. intros _. apply digits_bounds. Qed.

Lemma Zdigits2_nonneg (m : Z) : (0 <= Zdigits2 m)%Z.
Proof. destruct m; simpl; lia. Qed.

Lemma IZR_le_half (a b : Z) : IZR a < IZR b + 1 -> (a <= b)%Z.
Proof.
  intros H. apply Z.lt_succ_r. apply lt_IZR. rewrite succ_IZR. exact H.
Qed.

(** Rounding to nearest stays on the near side of every half-way point:
    if the exact number, in units of the last place kept, is below
    [k + 1/2], the result is at most [k] of these units, and it does not
    overflow while [k] units stay below [2^1024]. *)
Lemma binary_round_aux_le (s : bool) (mx ex : Z) (lx : location) (X0 : R) (k : Z) :
  inb X0 (shr_record_of_loc mx lx) ->
  (ex <= fexp prec emax (Zdigits2 mx + ex))%Z ->
  X0 * bpow (ex - fexp prec emax (Zdigits2 mx + ex)) < IZR k + / 2 ->
  IZR k * bpow (fexp prec emax (Zdigits2 mx + ex)) < bpow 1024 ->
  binary_round_aux prec emax s mx ex lx = S754_zero s \/
  exists m e,
    binary_round_aux prec emax s mx ex lx = S754_finite s m e /\
    IZR (Z.pos m) * bpow e <= IZR k * bpow (fexp prec emax (Zdigits2 mx + ex)).
Proof.
  intros Hinb Hn Hk Hov.
  set (e1 := fexp prec emax (Zdigits2 mx + ex)) in *.
  unfold binary_round_aux, shr_fexp. fold e1.
  destruct (shr_inb X0 (shr_record_of_loc mx lx) ex (e1 - ex) Hinb) as [H1 He1].
  destruct (shr (shr_record_of_loc mx lx) ex (e1 - ex)) as [rec1 e1'] eqn:E1.
  cbn [fst snd] in H1, He1.
  assert (Heq1 : e1' = e1) by lia. clear He1. subst e1'.
  destruct (round_nearest_even_near _ _ H1) as [Hmr0 [Hmrl Hmru]].
  set (mr := round_nearest_even (shr_m rec1) (loc_of_shr_record rec1)) in *.
  assert (Hmrk : (mr <= k)%Z) by (apply IZR_le_half; lra).
  pose proof (inb_of_loc_exact mr Hmr0) as Hinb2.
  set (n2 := (fexp prec emax (Zdigits2 mr + e1) - e1)%Z).
  destruct (shr_inb _ _ e1 n2 Hinb2) as [H2 He2].
  destruct (shr (shr_record_of_loc mr loc_Exact) e1 n2) as [rec2 e2] eqn:E2.
  cbn [fst snd] in H2, He2.
  destruct (inb_floor _ _ H2) as [Hm20 [Hm2l _]].
  pose proof (bpow_pos e1) as Hp1. pose proof (bpow_pos e2) as Hp2.
  assert (Hval : IZR (shr_m rec2) * bpow e2 <= IZR mr * bpow e1).
  { replace (IZR mr * bpow e1) with (IZR mr * bpow (e1 - e2) * bpow e2).
    - apply Rmult_le_compat_r; lra.
    - rewrite Rmult_assoc, <- bpow_add. do 2 f_equal. lia. }
  assert (Hmrk' : IZR mr * bpow e1 <= IZR k * bpow e1).
  { apply Rmult_le_compat_r; [lra|]. now apply IZR_le. }
  destruct (shr_m rec2) as [|m2|m2] eqn:Em2; [now left| |lia].
  right. exists m2, e2.
  assert (Hmrpos : (0 < mr)%Z).
  { destruct (Z.eq_dec mr 0%Z) as [Hz|]; [|lia]. exfalso.
    rewrite Hz in Hval. rewrite Rmult_0_l in Hval.
    assert (0 < IZR (Z.pos m2)) by (apply IZR_lt; lia). nra. }
  destruct (Zdigits2_bounds mr Hmrpos) as [Hdl Hdu].
  assert (He2le : (e2 <= 971)%Z).
  { destruct (Z_le_gt_dec e2 971%Z) as [Hle|Hgt]; [exact Hle|]. exfalso.
    assert (Hbig : bpow 1024 <= IZR mr * bpow e1); [|lra].
    destruct (Z_le_gt_dec e1 971%Z) as [Hle1|Hgt1].
    - (* the second shift moved the exponent up *)
      assert (Hn2 : (e2 = Zdigits2 mr + e1 - 53)%Z).
      { unfold n2 in He2. rewrite fexp_eq in He2. lia. }
      apply Rle_trans with (bpow (Zdigits2 mr - 1) * bpow e1).
      + rewrite <- bpow_add. apply bpow_le. lia.
      + apply Rmult_le_compat_r; lra.
    - (* the first exponent is already too high *)
      assert (Hn1 : (e1 = Zdigits2 mx + ex - 53)%Z).
      { unfold e1 in Hgt1 |- *. rewrite fexp_eq in Hgt1 |- *. lia. }
      assert (Hmxpos : (0 < mx)%Z).
      { destruct (inb_floor _ _ Hinb) as [Hmx0 _]. rewrite shr_m_of_loc in Hmx0.
        destruct (Z.eq_dec mx 0%Z) as [Hz|]; [|lia]. exfalso.
        rewrite Hz in Hn1. cbn [Zdigits2] in Hn1.
        unfold e1 in Hn. rewrite Hz in Hn. cbn [Zdigits2] in Hn.
        rewrite fexp_eq in Hn. unfold e1 in Hgt1. rewrite Hz in Hgt1.
        cbn [Zdigits2] in Hgt1. rewrite fexp_eq in Hgt1. lia. }
      destruct (Zdigits2_bounds mx Hmxpos) as [Hxl _].
      destruct (inb_floor _ _ Hinb) as [_ [Hx0 _]]. rewrite shr_m_of_loc in Hx0.
      assert (HX1 : bpow 52 <= X0 * bpow (ex - e1)).
      { apply Rle_trans with (bpow (Zdigits2 mx - 1) * bpow (ex - e1)).
        - rewrite <- bpow_add. apply bpow_le. lia.
        - apply Rmult_le_compat_r; [apply Rlt_le, bpow_pos|lra]. }
      assert (Hmr52 : (2 ^ 52 <= mr)%Z).
      { apply IZR_le_half. rewrite <- bpow_IZR by lia. lra. }
      apply IZR_le in Hmr52. rewrite <- bpow_IZR in Hmr52 by lia.
      apply Rle_trans with (bpow 52 * bpow e1).
      + rewrite <- bpow_add. apply bpow_le. lia.
      + apply Rmult_le_compat_r; lra. }
  change (emax - prec)%Z with 971%Z.
  replace (e2 <=? 971)%Z with true by (symmetry; now apply Z.leb_le).
  split; [reflexivity|]. lra.
Qed.

(** A bound that is itself a number of at most 53 bits is respected by
    rounding: what is at most [k * 2^g] rounds to at most [k * 2^g]. *)
Lemma binary_round_aux_grid_lt (s : bool) (mx ex : Z) (lx : location) (X0 : R) (k g : Z) :
  inb X0 (shr_record_of_loc mx lx) ->
  (ex <= fexp prec emax (Zdigits2 mx + ex))%Z ->
  X0 * bpow ex <= IZR k * bpow g ->
  (0 <= k < 2 ^ 53)%Z -> (-1074 <= g)%Z ->
  IZR k * bpow g < bpow 1024 ->
  binary_round_aux prec emax s mx ex lx = S754_zero s \/
  exists m e,
    binary_round_aux prec emax s mx ex lx = S754_finite s m e /\
    IZR (Z.pos m) * bpow e <= IZR k * bpow g.
Proof.
  intros Hinb Hn Hx Hk Hg Hov.
  destruct (inb_floor _ _ Hinb) as [Hmx0 [Hx0 _]]. rewrite shr_m_of_loc in Hmx0, Hx0.
  pose proof (bpow_pos ex) as Hpex. pose proof (bpow_pos g) as Hpg.
  assert (He1 : (fexp prec emax (Zdigits2 mx + ex) <= g)%Z).
  { rewrite fexp_eq in Hn |- *.
    destruct (Z.eq_dec mx 0%Z) as [Hz|Hnz].
    - rewrite Hz in Hn |- *. cbn [Zdigits2] in Hn |- *. lia.
    - destruct (Zdigits2_bounds mx ltac:(lia)) as [Hdl _].
      assert (Hlt : bpow (Zdigits2 mx - 1 + ex) < bpow (53 + g)).
      { rewrite !bpow_add.
        apply Rle_lt_trans with (IZR k * bpow g).
        - apply Rle_trans with (X0 * bpow ex); [|exact Hx].
          apply Rmult_le_compat_r; lra.
        - apply Rmult_lt_compat_r; [exact Hpg|].
          rewrite bpow_IZR by lia. apply IZR_lt. lia. }
      apply bpow_lt_inv in Hlt. lia. }
  set (e1 := fexp prec emax (Zdigits2 mx + ex)) in *.
  assert (HK : IZR (k * 2 ^ (g - e1)) * bpow e1 = IZR k * bpow g).
  { rewrite mult_IZR, <- bpow_IZR by lia. rewrite Rmult_assoc, <- bpow_add.
    do 2 f_equal. lia. }
  destruct (binary_round_aux_le s mx ex lx X0 (k * 2 ^ (g - e1)) Hinb Hn)
    as [Hz|(m & e & Hm & Hle)].
  - fold e1. pose proof (bpow_pos e1) as Hpe1. pose proof (bpow_pos (ex - e1)) as Hpd.
    assert (X0 * bpow (ex - e1) <= IZR (k * 2 ^ (g - e1))); [|lra].
    apply (Rmult_le_reg_r (bpow e1)); [exact Hpe1|].
    rewrite HK, Rmult_assoc, <- bpow_add.
    now replace (ex - e1 + e1)%Z with ex by lia.
  - fold e1. now rewrite HK.
  - now left.
  - right. exists m, e. split; [exact Hm|]. fold e1 in Hle. now rewrite HK in Hle.
Qed.

Lemma binary_round_aux_grid (s : bool) (mx ex : Z) (lx : location) (X0 : R) (k g : Z) :
  inb X0 (shr_record_of_loc mx lx) ->
  (ex <= fexp prec emax (Zdigits2 mx + ex))%Z ->
  X0 * bpow ex <= IZR k * bpow g ->
  (0 <= k <= 2 ^ 53)%Z -> (-1074 <= g)%Z ->
  IZR k * bpow g < bpow 1024 ->
  binary_round_aux prec emax s mx ex lx = S754_zero s \/
  exists m e,
    binary_round_aux prec emax s mx ex lx = S754_finite s m e /\
    IZR (Z.pos m) * bpow e <= IZR k * bpow g.
Proof.
  intros Hinb Hn Hx Hk Hg Hov.
  destruct (Z.eq_dec k (2 ^ 53)%Z) as [Hk53|Hne].
  - assert (Heq : IZR k * bpow g = IZR (2 ^ 52) * bpow (g + 1)).
    { rewrite Hk53, <- !bpow_IZR, <- !bpow_add by lia. f_equal. lia. }
    rewrite Heq in *.
    apply (binary_round_aux_grid_lt s mx ex lx X0 (2 ^ 52) (g + 1)); try assumption; lia.
  - apply (binary_round_aux_grid_lt s mx ex lx X0 k g); try assumption. lia.
Qed.

End Round.

Section Ops.
Import Lra.
#[local] Open Scope R_scope.

Lemma binary_round_aux_below (mx ex : Z) (lx : location) (X0 C : R) :
  inb X0 (shr_record_of_loc mx lx) ->
  (ex <= fexp prec emax (Zdigits2 mx + ex))%Z ->
  X0 * bpow ex <= C -> on_grid C ->
  sf_below (binary_round_aux prec emax false mx ex lx) C.
Proof.
  intros Hinb Hn Hx (k & g & -> & Hk & Hg & Hov).
  destruct (binary_round_aux_grid false mx ex lx X0 k g Hinb Hn Hx Hk Hg Hov)
    as [->|(m & e & -> & Hle)].
  - now left.
  - right. now exists m, e.
Qed.


(** Below a half-way point: a number in the binade of [2^(52+g)] that is
    under [(k + 1/2) * 2^g] rounds to at most [k * 2^g]. *)
Lemma binary_round_aux_half (mx ex : Z) (lx : location) (X0 : R) (k g : Z) :
  inb X0 (shr_record_of_loc mx lx) ->
  (ex <= fexp prec emax (Zdigits2 mx + ex))%Z ->
  bpow (52 + g) <= X0 * bpow ex ->
  X0 * bpow ex < (IZR k + / 2) * bpow g ->
  (0 <= k < 2 ^ 53)%Z -> (-1074 <= g)%Z ->
  IZR k * bpow g < bpow 1024 ->
  sf_below (binary_round_aux prec emax false mx ex lx) (IZR k * bpow g).
Proof.
  intros Hinb Hn Hlo Hx Hk Hg Hov.
  destruct (inb_floor _ _ Hinb) as [Hmx0 [Hx0 Hx1]]. rewrite shr_m_of_loc in Hmx0, Hx0, Hx1.
  pose proof (bpow_pos ex) as Hpex. pose proof (bpow_pos g) as Hpg.
  assert (Hdg : X0 < bpow (Zdigits2 mx)).
  { destruct (Z.eq_dec mx 0%Z) as [Hz|Hnz].
    - rewrite Hz in *. cbn [Zdigits2]. rewrite bpow_0. lra.
    - destruct (Zdigits2_bounds mx ltac:(lia)) as [_ Hdu].
      rewrite bpow_IZR in Hdu |- * by apply Zdigits2_nonneg.
      apply lt_IZR in Hdu.
      apply Rlt_le_trans with (IZR mx + 1); [exact Hx1|].
      rewrite <- succ_IZR. apply IZR_le. lia. }
  assert (He1 : fexp prec emax (Zdigits2 mx + ex) = g).
  { rewrite fexp_eq in Hn |- *.
    assert (Hlt : bpow (52 + g) < bpow (Zdigits2 mx + ex)).
    { rewrite (bpow_add (Zdigits2 mx)).
      apply Rle_lt_trans with (X0 * bpow ex); [exact Hlo|].
      apply Rmult_lt_compat_r; assumption. }
    apply bpow_lt_inv in Hlt.
    assert (Hlt2 : bpow (Zdigits2 mx - 1 + ex) < bpow (53 + g)).
    { destruct (Z.eq_dec mx 0%Z) as [Hz|Hnz].
      - apply bpow_lt. rewrite Hz in *. cbn [Zdigits2] in *. lia.
      - destruct (Zdigits2_bounds mx ltac:(lia)) as [Hdl _].
        rewrite !bpow_add.
        apply Rle_lt_trans with (X0 * bpow ex).
        + apply Rmult_le_compat_r; lra.
        + apply Rlt_le_trans with ((IZR k + / 2) * bpow g); [exact Hx|].
          apply Rmult_le_compat_r; [lra|].
          rewrite bpow_IZR by lia.
          assert (IZR k + 1 <= IZR (2 ^ 53)); [|lra].
          rewrite <- succ_IZR. apply IZR_le. lia. }
    apply bpow_lt_inv in Hlt2. lia. }
  destruct (binary_round_aux_le false mx ex lx X0 k Hinb Hn)
    as [Hz|(m & e & Hm & Hle)].
  - rewrite He1. pose proof (bpow_pos (ex - g)) as Hpd.
    apply (Rmult_lt_reg_r (bpow g)); [exact Hpg|].
    rewrite Rmult_assoc, <- bpow_add.
    now replace (ex - g + g)%Z with ex by lia.
  - now rewrite He1.
  - left. now rewrite Hz.
  - right. exists m, e. split; [exact Hm|]. now rewrite He1 in Hle.
Qed.

Lemma iter_xO_pos (m d : positive) :
  Z.pos (Pos.iter xO m d) = (Z.pos m * 2 ^ Z.pos d)%Z.
Proof.
  induction d as [|d IH] using Pos.peano_ind.
  - cbn [Pos.iter]. lia.
  - rewrite Pos.iter_succ, Pos2Z.inj_succ, Z.pow_succ_r by lia.
    rewrite Pos2Z.inj_xO, IH. lia.
Qed.

Lemma iter_xO_digits (m d : positive) :
  Z.pos (digits2_pos (Pos.iter xO m d)) = (Z.pos (digits2_pos m) + Z.pos d)%Z.
Proof.
  induction d as [|d IH] using Pos.peano_ind.
  - cbn [Pos.iter digits2_pos]. lia.
  - rewrite Pos.iter_succ. cbn [digits2_pos]. lia.
Qed.

(** Aligning a mantissa to a smaller exponent keeps the value. *)
Lemma shl_align_spec (m : positive) (e e' : Z) :
  IZR (Z.pos (fst (shl_align m e e'))) * bpow (snd (shl_align m e e')) =
    IZR (Z.pos m) * bpow e /\
  snd (shl_align m e e') = Z.min e e' /\
  (Z.pos (digits2_pos (fst (shl_align m e e'))) + snd (shl_align m e e') =
   Z.pos (digits2_pos m) + e)%Z.
Proof.
  unfold shl_align. destruct (e' - e)%Z as [|d|d] eqn:Hd; cbn [fst snd].
  - repeat split; lia.
  - repeat split; lia.
  - assert (He : e = (Z.pos d + e')%Z) by lia.
    repeat split.
    + rewrite iter_xO_pos, mult_IZR, <- bpow_IZR by lia.
      rewrite Rmult_assoc, <- bpow_add. now rewrite He.
    + lia.
    + rewrite iter_xO_digits. lia.
Qed.

Lemma binary_round_Hn (m : positive) (e : Z) :
  let r := shl_align m e (fexp prec emax (Z.pos (digits2_pos m) + e)) in
  (snd r <= fexp prec emax (Zdigits2 (Z.pos (fst r)) + snd r))%Z.
Proof.
  intros r. subst r.
  destruct (shl_align_spec m e (fexp prec emax (Z.pos (digits2_pos m) + e)))
    as (_ & Hs & Hd).
  cbn [Zdigits2]. rewrite Hd, Hs. lia.
Qed.

Lemma binary_round_below (m : positive) (e : Z) (C : R) :
  IZR (Z.pos m) * bpow e <= C -> on_grid C ->
  sf_below (binary_round prec emax false m e) C.
Proof.
  intros Hx HC. unfold binary_round.
  pose proof (binary_round_Hn m e) as Hn. cbv zeta in Hn.
  destruct (shl_align_spec m e (fexp prec emax (Z.pos (digits2_pos m) + e)))
    as (Hv & _ & _).
  destruct (shl_align m e (fexp prec emax (Z.pos (digits2_pos m) + e))) as [mz ez].
  cbn [fst snd] in *.
  apply (binary_round_aux_below _ _ _ (IZR (Z.pos mz))).
  - apply inb_of_loc_exact. lia.
  - exact Hn.
  - now rewrite Hv.
  - exact HC.
Qed.

Lemma binary_round_half (m : positive) (e : Z) (k g : Z) :
  bpow (52 + g) <= IZR (Z.pos m) * bpow e ->
  IZR (Z.pos m) * bpow e < (IZR k + / 2) * bpow g ->
  (0 <= k < 2 ^ 53)%Z -> (-1074 <= g)%Z ->
  IZR k * bpow g < bpow 1024 ->
  sf_below (binary_round prec emax false m e) (IZR k * bpow g).
Proof.
  intros Hlo Hx Hk Hg Hov. unfold binary_round.
  pose proof (binary_round_Hn m e) as Hn. cbv zeta in Hn.
  destruct (shl_align_spec m e (fexp prec emax (Z.pos (digits2_pos m) + e)))
    as (Hv & _ & _).
  destruct (shl_align m e (fexp prec emax (Z.pos (digits2_pos m) + e))) as [mz ez].
  cbn [fst snd] in *.
  apply (binary_round_aux_half _ _ _ (IZR (Z.pos mz))); try assumption.
  - apply inb_of_loc_exact. lia.
  - now rewrite Hv.
  - now rewrite Hv.
Qed.

Lemma binary_round_negative (m : positive) (e : Z) :
  sf_not_positive (binary_round prec emax true m e) = true.
Proof.
  unfold binary_round.
  destruct (shl_align m e (fexp prec emax (Z.pos (digits2_pos m) + e))) as [mz ez].
  apply round_negative.
Qed.

(** An integer multiple of a power of two, rounded. *)
Lemma binary_normalize_below (M e : Z) (C : R) :
  IZR M * bpow e <= C -> on_grid C ->
  sf_below (binary_normalize prec emax M e false) C.
Proof.
  intros Hx HC. destruct M as [|m|m]; cbn [binary_normalize].
  - now left.
  - now apply binary_round_below.
  - left. apply binary_round_negative.
Qed.

Lemma binary_normalize_half (M e : Z) (k g : Z) :
  bpow (52 + g) <= IZR M * bpow e ->
  IZR M * bpow e < (IZR k + / 2) * bpow g ->
  (0 <= k < 2 ^ 53)%Z -> (-1074 <= g)%Z ->
  IZR k * bpow g < bpow 1024 ->
  sf_below (binary_normalize prec emax M e false) (IZR k * bpow g).
Proof.
  intros Hlo Hx Hk Hg Hov. destruct M as [|m|m]; cbn [binary_normalize].
  - now left.
  - now apply binary_round_half.
  - left. apply binary_round_negative.
Qed.

(** What a valid finite number's mantissa and exponent satisfy. *)
Lemma bounded_facts (m : positive) (e : Z) :
  SpecFloat.bounded prec emax m e = true ->
  (-1074 <= e <= 971)%Z /\
  IZR (Z.pos m) < bpow 53 /\
  ((-1074 < e)%Z -> bpow 52 <= IZR (Z.pos m)) /\
  (e <= fexp prec emax (Z.pos (digits2_pos m) + e))%Z.
Proof.
  unfold SpecFloat.bounded, canonical_mantissa. intros H.
  apply andb_prop in H. destruct H as [Hc He].
  apply Z.eqb_eq in Hc. apply Z.leb_le in He.
  change (emax - prec)%Z with 971%Z in He.
  pose proof (digits_bounds m) as [Hdl Hdu].
  rewrite Hc. rewrite fexp_eq in Hc.
  split; [lia|]. split; [|split; [|lia]].
  - apply Rlt_le_trans with (1 := Hdu). apply bpow_le. lia.
  - intros Hn. apply Rle_trans with (2 := Hdl). apply bpow_le. lia.
Qed.


Lemma sf_below_mono (x : spec_float) (C C' : R) :
  sf_below x C -> C <= C' -> sf_below x C'.
Proof.
  intros [H|(m & e & -> & H)] HC; [now left|].
  right. exists m, e. split; [reflexivity|lra].
Qed.

Lemma aligned_value (mx : positive) (ex ey : Z) :
  IZR (Z.pos (fst (shl_align mx ex (Z.min ex ey)))) * bpow (Z.min ex ey) =
  IZR (Z.pos mx) * bpow ex.
Proof.
  destruct (shl_align_spec mx ex (Z.min ex ey)) as (Hv & Hs & _).
  rewrite <- Hv. do 2 f_equal. lia.
Qed.

Lemma aligned_value' (my : positive) (ex ey : Z) :
  IZR (Z.pos (fst (shl_align my ey (Z.min ex ey)))) * bpow (Z.min ex ey) =
  IZR (Z.pos my) * bpow ey.
Proof.
  destruct (shl_align_spec my ey (Z.min ex ey)) as (Hv & Hs & _).
  rewrite <- Hv. do 2 f_equal. lia.
Qed.

(** *** Sum, difference, product and quotient of two positive numbers *)

Lemma SFadd_below (mx : positive) (ex : Z) (my : positive) (ey : Z) (C : R) :
  IZR (Z.pos mx) * bpow ex + IZR (Z.pos my) * bpow ey <= C -> on_grid C ->
  sf_below (SFadd prec emax (S754_finite false mx ex) (S754_finite false my ey)) C.
Proof.
  intros Hx HC. cbn [SFadd cond_Zopp].
  apply binary_normalize_below; [|exact HC].
  rewrite plus_IZR, Rmult_plus_distr_r, aligned_value, aligned_value'. exact Hx.
Qed.

Lemma SFadd_half (mx : positive) (ex : Z) (my : positive) (ey : Z) (k g : Z) :
  bpow (52 + g) <= IZR (Z.pos mx) * bpow ex + IZR (Z.pos my) * bpow ey ->
  IZR (Z.pos mx) * bpow ex + IZR (Z.pos my) * bpow ey < (IZR k + / 2) * bpow g ->
  (0 <= k < 2 ^ 53)%Z -> (-1074 <= g)%Z ->
  IZR k * bpow g < bpow 1024 ->
  sf_below (SFadd prec emax (S754_finite false mx ex) (S754_finite false my ey))
           (IZR k * bpow g).
Proof.
  intros Hlo Hx Hk Hg Hov. cbn [SFadd cond_Zopp].
  apply binary_normalize_half; try assumption;
    rewrite plus_IZR, Rmult_plus_distr_r, aligned_value, aligned_value'; assumption.
Qed.

Lemma SFsub_below (mx : positive) (ex : Z) (my : positive) (ey : Z) (C : R) :
  IZR (Z.pos mx) * bpow ex - IZR (Z.pos my) * bpow ey <= C -> on_grid C ->
  sf_below (SFsub prec emax (S754_finite false mx ex) (S754_finite false my ey)) C.
Proof.
  intros Hx HC. cbn [SFsub cond_Zopp].
  apply binary_normalize_below; [|exact HC].
  rewrite minus_IZR. unfold Rminus.
  rewrite Rmult_plus_distr_r, Ropp_mult_distr_l_reverse, aligned_value, aligned_value'.
  exact Hx.
Qed.

Lemma SFmul_below (mx : positive) (ex : Z) (my : positive) (ey : Z) (C : R) :
  SpecFloat.bounded prec emax mx ex = true ->
  SpecFloat.bounded prec emax my ey = true ->
  (IZR (Z.pos mx) * bpow ex) * (IZR (Z.pos my) * bpow ey) <= C -> on_grid C ->
  sf_below (SFmul prec emax (S754_finite false mx ex) (S754_finite false my ey)) C.
Proof.
  intros Hbx Hby Hx HC. cbn [SFmul xorb].
  destruct (bounded_facts _ _ Hbx) as (Hex & Hmx & Hnx & _).
  destruct (bounded_facts _ _ Hby) as (Hey & Hmy & Hny & _).
  apply (binary_round_aux_below _ _ _ (IZR (Z.pos (mx * my)))).
  - apply inb_of_loc_exact. lia.
  - rewrite fexp_eq.
    destruct (Z.eq_dec ex (-1074)%Z) as [Hx0|Hx0];
      [destruct (Z.eq_dec ey (-1074)%Z) as [Hy0|Hy0]; [lia|]|].
    + assert (Hd : (52 < Zdigits2 (Z.pos (mx * my)))%Z).
      { apply bpow_lt_inv.
        destruct (Zdigits2_bounds (Z.pos (mx * my)) ltac:(lia)) as [_ Hu].
        apply Rle_lt_trans with (2 := Hu).
        rewrite Pos2Z.inj_mul, mult_IZR.
        assert (1 <= IZR (Z.pos mx)) by (apply IZR_le; lia).
        pose proof (Hny ltac:(lia)). pose proof (bpow_pos 52).
        replace (bpow 52) with (1 * bpow 52) by ring.
        apply Rmult_le_compat; lra. }
      lia.
    + assert (Hd : (52 < Zdigits2 (Z.pos (mx * my)))%Z).
      { apply bpow_lt_inv.
        destruct (Zdigits2_bounds (Z.pos (mx * my)) ltac:(lia)) as [_ Hu].
        apply Rle_lt_trans with (2 := Hu).
        rewrite Pos2Z.inj_mul, mult_IZR.
        assert (1 <= IZR (Z.pos my)) by (apply IZR_le; lia).
        pose proof (Hnx ltac:(lia)). pose proof (bpow_pos 52).
        replace (bpow 52) with (bpow 52 * 1) by ring.
        apply Rmult_le_compat; lra. }
      lia.
  - rewrite Pos2Z.inj_mul, mult_IZR, bpow_add.
    replace (IZR (Z.pos mx) * IZR (Z.pos my) * (bpow ex * bpow ey))
      with (IZR (Z.pos mx) * bpow ex * (IZR (Z.pos my) * bpow ey)) by ring.
    exact Hx.
  - exact HC.
Qed.

(** The quotient and remainder of the long division locate the exact
    quotient. *)
Lemma new_location_inb (m2 q r : Z) :
  (0 < m2)%Z -> (0 <= r < m2)%Z -> (0 <= q)%Z ->
  inb (IZR q + IZR r / IZR m2) (shr_record_of_loc q (new_location m2 r)).
Proof.
  intros Hm2 Hr Hq.
  assert (Hm2R : 0 < IZR m2) by (apply IZR_lt; lia).
  assert (Hr0 : 0 <= IZR r) by (apply IZR_le; lia).
  assert (Hhalf : forall c, (2 * r ?= m2)%Z = c ->
            match c with
            | Lt => IZR r / IZR m2 < / 2
            | Eq => IZR r / IZR m2 = / 2
            | Gt => / 2 < IZR r / IZR m2
            end).
  { intros c Hc. destruct c.
    - apply Z.compare_eq in Hc. rewrite <- Hc, mult_IZR. field.
      rewrite <- Hc, mult_IZR in Hm2R. lra.
    - rewrite Z.compare_lt_iff in Hc. apply IZR_lt in Hc. rewrite mult_IZR in Hc.
      apply (Rmult_lt_reg_r (IZR m2)); [exact Hm2R|].
      unfold Rdiv. rewrite Rmult_assoc, Rinv_l by lra. lra.
    - rewrite Z.compare_gt_iff in Hc. apply IZR_lt in Hc. rewrite mult_IZR in Hc.
      apply (Rmult_lt_reg_r (IZR m2)); [exact Hm2R|].
      unfold Rdiv. rewrite Rmult_assoc, Rinv_l by lra. lra. }
  assert (Hlt1 : IZR r / IZR m2 < 1).
  { apply (Rmult_lt_reg_r (IZR m2)); [exact Hm2R|].
    unfold Rdiv. rewrite Rmult_assoc, Rinv_l by lra.
    assert (IZR r < IZR m2) by (apply IZR_lt; lia). lra. }
  assert (Hodd : Z.even m2 = false -> (2 * r <> m2)%Z).
  { intros Hev Heq. rewrite <- Heq, Z.even_mul in Hev. discriminate. }
  unfold new_location, new_location_even, new_location_odd.
  change (IntDef.Z.even m2) with (Z.even m2).
  destruct (Z.even m2) eqn:Hev; cbv beta.
  - destruct (Z.eq_dec r 0%Z) as [Hz|Hnz].
    + rewrite Hz. unfold Rdiv. rewrite Rmult_0_l, Rplus_0_r.
      now apply inb_of_loc_exact.
    + rewrite (proj2 (Z.eqb_neq r 0) Hnz).
      assert (Hrpos : 0 < IZR r / IZR m2).
      { apply Rdiv_lt_0_compat; [|exact Hm2R]. apply IZR_lt. lia. }
      specialize (Hhalf _ eq_refl).
      destruct (2 * r ?= m2)%Z; (split; [exact Hq|]); cbn [shr_record_of_loc shr_r shr_s shr_m]; lra.
  - destruct (Z.eq_dec r 0%Z) as [Hz|Hnz].
    + rewrite Hz. unfold Rdiv. rewrite Rmult_0_l, Rplus_0_r.
      now apply inb_of_loc_exact.
    + rewrite (proj2 (Z.eqb_neq r 0) Hnz).
      assert (Hrpos : 0 < IZR r / IZR m2).
      { apply Rdiv_lt_0_compat; [|exact Hm2R]. apply IZR_lt. lia. }
      specialize (Hodd eq_refl).
      specialize (Hhalf _ eq_refl).
      destruct (Z.compare_spec (2 * r + 1) m2) as [Hc|Hc|Hc];
        destruct (Z.compare_spec (2 * r) m2) as [Hc'|Hc'|Hc']; try lia;
        (split; [exact Hq|]); cbn [shr_record_of_loc shr_r shr_s shr_m]; lra.
Qed.


Lemma fexp_mono (a b : Z) :
  (a <= b)%Z -> (fexp prec emax a <= fexp prec emax b)%Z.
Proof. rewrite !fexp_eq. lia. Qed.

(** The integer quotient has at least the digits the operands leave it. *)
Lemma quotient_digits (m' m2 q r : Z) (d : Z) :
  (0 < m2)%Z -> (0 <= r < m2)%Z -> (0 <= q)%Z -> m' = (m2 * q + r)%Z ->
  bpow (d - 1) <= IZR m' ->
  (d - Zdigits2 m2 <= Zdigits2 q)%Z.
Proof.
  intros Hm2 Hr Hq Hm' Hd.
  destruct (Zdigits2_bounds m2 Hm2) as [_ Hu2].
  assert (Hlt : IZR m' < bpow (Zdigits2 m2) * (IZR q + 1)).
  { rewrite Hm', plus_IZR, mult_IZR.
    assert (IZR r < IZR m2) by (apply IZR_lt; lia).
    assert (0 <= IZR q) by (apply IZR_le; lia).
    apply Rlt_le_trans with (IZR m2 * (IZR q + 1)); [lra|].
    apply Rmult_le_compat_r; lra. }
  destruct (Z.eq_dec q 0%Z) as [Hq0|Hq0].
  - rewrite Hq0 in *. cbn [Zdigits2].
    assert (Hb : bpow (d - 1) < bpow (Zdigits2 m2)) by lra.
    apply bpow_lt_inv in Hb. lia.
  - destruct (Zdigits2_bounds q ltac:(lia)) as [_ Huq].
    assert (Hq1 : IZR q + 1 <= bpow (Zdigits2 q)).
    { rewrite bpow_IZR in Huq |- * by apply Zdigits2_nonneg.
      apply lt_IZR in Huq. rewrite <- succ_IZR. apply IZR_le. lia. }
    assert (Hb : bpow (d - 1) < bpow (Zdigits2 m2 + Zdigits2 q)).
    { rewrite bpow_add. pose proof (bpow_pos (Zdigits2 m2)).
      apply Rle_lt_trans with (1 := Hd). apply Rlt_le_trans with (1 := Hlt).
      apply Rmult_le_compat_l; lra. }
    apply bpow_lt_inv in Hb. lia.
Qed.

Lemma SFdiv_below (mx : positive) (ex : Z) (my : positive) (ey : Z) (C : R) :
  IZR (Z.pos mx) * bpow ex / (IZR (Z.pos my) * bpow ey) <= C -> on_grid C ->
  sf_below (SFdiv prec emax (S754_finite false mx ex) (S754_finite false my ey)) C.
Proof.
  intros Hx HC. cbn [SFdiv xorb]. unfold SFdiv_core_binary. cbv zeta.
  set (d1 := Zdigits2 (Z.pos mx)). set (d2 := Zdigits2 (Z.pos my)).
  set (e' := Z.min (fexp prec emax (d1 + ex - (d2 + ey))) (ex - ey)).
  set (s := (ex - ey - e')%Z).
  assert (Hs : (0 <= s)%Z) by (subst s e'; lia).
  set (m' := match s with
             | 0%Z => Z.pos mx
             | Z.pos _ => Z.shiftl (Z.pos mx) s
             | Z.neg _ => 0%Z
             end).
  assert (Hm' : m' = (Z.pos mx * 2 ^ s)%Z).
  { subst m'. destruct s as [|ps|ps] eqn:Hes.
    - lia.
    - now rewrite Z.shiftl_mul_pow2.
    - lia. }
  clearbody m'.
  pose proof (Z_div_mod m' (Z.pos my) ltac:(lia)) as Hdiv.
  destruct (Z.div_eucl m' (Z.pos my)) as [q r]. destruct Hdiv as [Hqr Hr].
  assert (Hq : (0 <= q)%Z) by nia.
  assert (HmyR : 0 < IZR (Z.pos my)) by (apply IZR_lt; lia).
  assert (Hm'R : IZR m' = IZR (Z.pos mx) * bpow s).
  { rewrite Hm', mult_IZR, <- bpow_IZR by exact Hs. reflexivity. }
  apply (binary_round_aux_below _ _ _ (IZR q + IZR r / IZR (Z.pos my))).
  - apply new_location_inb; [lia|exact Hr|exact Hq].
  - apply Z.le_trans with (fexp prec emax (d1 + ex - (d2 + ey))); [subst e'; lia|].
    apply fexp_mono.
    assert (Hd : (d1 + s - d2 <= Zdigits2 q)%Z).
    { apply (quotient_digits m' (Z.pos my) q r); try assumption; [lia|].
      rewrite Hm'R. replace (d1 + s - 1)%Z with ((d1 - 1) + s)%Z by lia.
      rewrite bpow_add. pose proof (bpow_pos s).
      apply Rmult_le_compat_r; [lra|].
      destruct (Zdigits2_bounds (Z.pos mx) ltac:(lia)) as [Hl _]. exact Hl. }
    lia.
  - replace (IZR q + IZR r / IZR (Z.pos my)) with (IZR m' / IZR (Z.pos my)).
    2:{ rewrite Hqr, plus_IZR, mult_IZR. field. lra. }
    rewrite Hm'R.
    replace (IZR (Z.pos mx) * bpow s / IZR (Z.pos my) * bpow e')
      with (IZR (Z.pos mx) * bpow ex / (IZR (Z.pos my) * bpow ey)); [exact Hx|].
    replace ex with (s + e' + ey)%Z at 1 by lia.
    rewrite !bpow_add. pose proof (bpow_pos ey). field. lra.
  - exact HC.
Qed.

(** *** Order *)

Lemma SFleb_of_le (mx : positive) (ex : Z) (my : positive) (ey : Z) :
  SpecFloat.bounded prec emax mx ex = true ->
  SpecFloat.bounded prec emax my ey = true ->
  IZR (Z.pos mx) * bpow ex <= IZR (Z.pos my) * bpow ey ->
  SFleb (S754_finite false mx ex) (S754_finite false my ey) = true.
Proof.
  intros Hbx Hby Hle.
  destruct (bounded_facts _ _ Hbx) as (Hex & Hmx & Hnx & _).
  destruct (bounded_facts _ _ Hby) as (Hey & Hmy & Hny & _).
  unfold SFleb, SFcompare.
  change (PosDef.Pos.compare_cont Eq mx my) with (mx ?= my)%positive.
  destruct (Z.compare_spec ex ey) as [He|He|He].
  - rewrite He in Hle. pose proof (bpow_pos ey).
    apply Rmult_le_reg_r in Hle; [|assumption]. apply le_IZR in Hle.
    destruct (Pos.compare_spec mx my); try reflexivity. lia.
  - reflexivity.
  - exfalso. specialize (Hnx ltac:(lia)).
    assert (Hlt : IZR (Z.pos my) * bpow ey < IZR (Z.pos mx) * bpow ex); [|lra].
    apply Rlt_le_trans with (bpow 53 * bpow ey).
    + apply Rmult_lt_compat_r; [apply bpow_pos|exact Hmy].
    + apply Rle_trans with (bpow 52 * bpow ex).
      * rewrite <- !bpow_add. apply bpow_le. lia.
      * apply Rmult_le_compat_r; [pose proof (bpow_pos ex); lra|exact Hnx].
Qed.

End Ops.

(** ** The sizing formula in binary64 stays under twice the multiplier *)
Section KellyChain.
Import Lra.
Import AdaptiveKelly RiskSizerSpec.
#[local] Open Scope R_scope.

Lemma bpow_52 : bpow 52 = 4503599627370496.
Proof. rewrite bpow_IZR by lia. reflexivity. Qed.

Lemma bpow_m52 : bpow (-52) = / 4503599627370496.
Proof.
  change (-52)%Z with (- (52))%Z. rewrite bpow_opp, bpow_52. reflexivity.
Qed.

Lemma bpow_m53 : bpow (-53) = / 9007199254740992.
Proof.
  change (-53)%Z with (- (53))%Z. rewrite bpow_opp, bpow_IZR by lia. reflexivity.
Qed.

Lemma bpow_2 : bpow 2 = 4.
Proof. rewrite bpow_IZR by lia. reflexivity. Qed.

Lemma pow_value (e : Z) :
  IZR (Z.pos 4503599627370496) * bpow e = bpow (52 + e).
Proof. rewrite bpow_add, bpow_52. reflexivity. Qed.

Lemma one_value : IZR (Z.pos 4503599627370496) * bpow (-52) = 1.
Proof. rewrite pow_value. apply bpow_0. Qed.

Lemma value_pos (m : positive) (e : Z) : 0 < IZR (Z.pos m) * bpow e.
Proof.
  apply Rmult_lt_0_compat; [apply IZR_lt; lia|apply bpow_pos].
Qed.

Lemma on_grid_0 : on_grid 0.
Proof.
  exists 0%Z, 0%Z. split; [now rewrite Rmult_0_l|].
  split; [lia|]. split; [lia|apply bpow_pos].
Qed.

Lemma on_grid_pow (e : Z) : (-1074 <= e <= 1023)%Z -> on_grid (bpow e).
Proof.
  intros He. exists 1%Z, e. split; [now rewrite Rmult_1_l|].
  split; [lia|]. split; [lia|apply bpow_lt; lia].
Qed.

(** The value of a valid number is on the grid. *)
Lemma on_grid_value (m : positive) (e : Z) :
  SpecFloat.bounded prec emax m e = true -> on_grid (IZR (Z.pos m) * bpow e).
Proof.
  intros Hb. destruct (bounded_facts _ _ Hb) as (He & Hm & _ & _).
  exists (Z.pos m), e. split; [reflexivity|]. split; [|split; [lia|]].
  - rewrite bpow_IZR in Hm by lia. apply lt_IZR in Hm. lia.
  - apply Rlt_le_trans with (bpow 53 * bpow e).
    + apply Rmult_lt_compat_r; [apply bpow_pos|exact Hm].
    + rewrite <- bpow_add. apply bpow_le. lia.
Qed.

Lemma SFleb_le (mx : positive) (ex : Z) (my : positive) (ey : Z) :
  SpecFloat.bounded prec emax mx ex = true ->
  SpecFloat.bounded prec emax my ey = true ->
  SFleb (S754_finite false mx ex) (S754_finite false my ey) = true ->
  IZR (Z.pos mx) * bpow ex <= IZR (Z.pos my) * bpow ey.
Proof.
  intros Hbx Hby.
  destruct (bounded_facts _ _ Hbx) as (Hex & Hmx & Hnx & _).
  destruct (bounded_facts _ _ Hby) as (Hey & Hmy & Hny & _).
  unfold SFleb, SFcompare.
  change (PosDef.Pos.compare_cont Eq mx my) with (mx ?= my)%positive.
  destruct (Z.compare_spec ex ey) as [He|He|He].
  - rewrite He.
    destruct (Pos.compare_spec mx my) as [Hc|Hc|Hc]; intros H;
      try discriminate H;
      (apply Rmult_le_compat_r; [pose proof (bpow_pos ey); lra|apply IZR_le; lia]).
  - intros _. specialize (Hny ltac:(lia)).
    apply Rle_trans with (bpow 53 * bpow ex).
    + apply Rmult_le_compat_r; [pose proof (bpow_pos ex); lra|lra].
    + apply Rle_trans with (bpow 52 * bpow ey).
      * rewrite <- !bpow_add. apply bpow_le. lia.
      * apply Rmult_le_compat_r; [pose proof (bpow_pos ey); lra|exact Hny].
  - discriminate.
Qed.

(** A probability that passes the two comparisons is a valid number of
    [0, 1]. *)
Lemma signal_unit (p : float) :
  (0 <=? p)%float = true -> (p <=? 1)%float = true -> sf_unit (Prim2SF p).
Proof.
  rewrite !FloatAxioms.leb_spec. rewrite Prim2SF_zero.
  change (Prim2SF 1%float) with (S754_finite false 4503599627370496 (-52)).
  pose proof (Prim2SF_valid p) as Hv.
  destruct (Prim2SF p) as [s|s| |s m e]; cbn [sf_unit].
  - trivial.
  - destruct s; intros H0 H1; [discriminate H0|discriminate H1].
  - intros H0; discriminate H0.
  - destruct s; intros H0 H1; [discriminate H0|].
    cbn [SpecFloat.valid_binary] in Hv. split; [exact Hv|].
    rewrite <- one_value. apply SFleb_le; [exact Hv|reflexivity|exact H1].
Qed.

Lemma mul_unit_not_positive (p S : spec_float) :
  sf_unit p -> sf_not_positive S = true ->
  sf_not_positive (SFmul prec emax p S) = true.
Proof.
  destruct p as [sp|sp| |sp mp ep]; cbn [sf_unit]; try contradiction.
  - intros _.
    destruct S as [s|s| |s m e]; cbn [SFmul sf_not_positive xorb]; intros H;
      reflexivity.
  - destruct sp; [contradiction|]. intros _.
    destruct S as [s|s| |s m e]; cbn [SFmul sf_not_positive xorb]; intros H;
      try reflexivity; try exact H.
    subst s. apply round_negative.
Qed.

Lemma sub_not_positive (t : spec_float) (my : positive) (ey : Z) :
  sf_not_positive t = true ->
  sf_not_positive (SFsub prec emax t (S754_finite false my ey)) = true.
Proof.
  destruct t as [s|s| |s m e]; cbn [SFsub sf_not_positive negb]; intros H;
    try reflexivity; try exact H.
  subst s. cbn [cond_Zopp].
  match goal with
  | |- context [binary_normalize _ _ ?M _ _] =>
      assert (HM : (M < 0)%Z) by lia; destruct M; try lia
  end.
  cbn [binary_normalize]. apply binary_round_negative.
Qed.

(** From a bound on the rounded sum [b + 1] to the bound 2 on the rounded
    Kelly fraction: the product with [p <= 1] stays under the bound [Cs] of
    the sum, taking 1 off stays under [U], and [U <= 2b] bounds the
    quotient by 2. *)
Lemma kelly_chain (p S : spec_float) (mb : positive) (eb : Z) (Cs U : R) :
  sf_unit p -> valid_binary S = true ->
  sf_below S Cs -> on_grid Cs -> on_grid U ->
  Cs - 1 <= U -> U <= 2 * (IZR (Z.pos mb) * bpow eb) ->
  sf_below
    (SFdiv prec emax
       (SFsub prec emax (SFmul prec emax p S)
                        (S754_finite false 4503599627370496 (-52)))
       (S754_finite false mb eb)) 2.
Proof.
  intros Hp HvS HS HCs HU HCU HUB.
  assert (Ht : sf_below (SFmul prec emax p S) Cs).
  { destruct HS as [HS|(ms & es & -> & HS)].
    - left. now apply mul_unit_not_positive.
    - destruct p as [sp|sp| |sp mp ep]; cbn [sf_unit] in Hp; try contradiction.
      + left. reflexivity.
      + destruct sp; [contradiction|]. destruct Hp as [Hbp Hp1].
        cbn [SpecFloat.valid_binary] in HvS.
        apply SFmul_below; [exact Hbp|exact HvS| |exact HCs].
        pose proof (value_pos mp ep) as Hpp. pose proof (value_pos ms es) as Hps.
        apply Rle_trans with (1 * (IZR (Z.pos ms) * bpow es)); [|lra].
        apply Rmult_le_compat_r; lra. }
  assert (Hu : sf_below
                 (SFsub prec emax (SFmul prec emax p S)
                                  (S754_finite false 4503599627370496 (-52))) U).
  { destruct Ht as [Ht|(mt & et & -> & Ht)].
    - left. now apply sub_not_positive.
    - apply SFsub_below; [|exact HU]. rewrite one_value. lra. }
  destruct Hu as [Hu|(mu & eu & -> & Hu)].
  - left. apply div_not_positive; [exact Hu|reflexivity].
  - apply SFdiv_below.
    + pose proof (value_pos mb eb) as Hpb.
      set (B := IZR (Z.pos mb) * bpow eb) in *.
      set (V := IZR (Z.pos mu) * bpow eu) in *.
      apply (Rmult_le_reg_r B); [exact Hpb|].
      unfold Rdiv. rewrite Rmult_assoc, Rinv_l by lra. lra.
    + rewrite <- bpow_1. apply on_grid_pow. lia.
Qed.

(** The Kelly fraction of a valid signal, as [calculate] computes it, is
    not above 2. *)
Lemma raw_kelly_below (p b : float) :
  valid_signal p b -> sf_below (Prim2SF ((p * (b + 1) - 1) / b)%float) 2.
Proof.
  intros (Hp0 & Hp1 & Hb).
  pose proof (signal_unit p Hp0 Hp1) as Hp.
  pose proof (Prim2SF_valid (b + 1)%float) as HvS.
  pose proof (Prim2SF_valid b) as Hvb.
  rewrite ltb_zero_positive in Hb.
  rewrite FloatAxioms.div_spec, FloatAxioms.sub_spec, FloatAxioms.mul_spec.
  rewrite FloatAxioms.add_spec in HvS |- *.
  change (Prim2SF 1%float) with (S754_finite false 4503599627370496 (-52)) in *.
  unfold SF64div, SF64sub, SF64mul, SF64add in *.
  destruct (Prim2SF b) as [sb|sb| |sb mb eb]; try discriminate Hb.
  - destruct sb; [discriminate Hb|]. left.
    destruct (Prim2SF p) as [sp|sp| |sp mp ep]; cbn [sf_unit] in Hp;
      try contradiction.
    + reflexivity.
    + destruct sp; [contradiction|]. reflexivity.
  - destruct sb; [discriminate Hb|]. cbn [SpecFloat.valid_binary] in Hvb.
    destruct (bounded_facts _ _ Hvb) as (Heb & Hmb & Hnb & _).
    pose proof (value_pos mb eb) as HB.
    pose proof (on_grid_value _ _ Hvb) as HgB.
    assert (Hmbz : (0 <= Z.pos mb < 2 ^ 53)%Z).
    { rewrite bpow_IZR in Hmb by lia. apply lt_IZR in Hmb. lia. }
    destruct (Rlt_le_dec (IZR (Z.pos mb) * bpow eb) (bpow (-53))) as [Htiny|Hnt].
    { (* the sum rounds to 1 *)
      apply (kelly_chain _ _ mb eb (IZR (2 ^ 52) * bpow (-52)) 0); try assumption.
      - apply SFadd_half.
        + rewrite one_value. replace (52 + -52)%Z with 0%Z by lia.
          rewrite bpow_0. lra.
        + rewrite one_value. rewrite bpow_m53 in Htiny. rewrite bpow_m52.
          change (IZR (2 ^ 52)) with 4503599627370496. lra.
        + lia.
        + lia.
        + change (IZR (2 ^ 52)) with (IZR (Z.pos 4503599627370496)).
          rewrite one_value, <- bpow_0. apply bpow_lt. lia.
      - change (IZR (2 ^ 52)) with (IZR (Z.pos 4503599627370496)).
        rewrite one_value, <- bpow_0. apply on_grid_pow. lia.
      - apply on_grid_0.
      - change (IZR (2 ^ 52)) with (IZR (Z.pos 4503599627370496)).
        rewrite one_value. lra.
      - lra. }
    destruct (Rlt_le_dec (IZR (Z.pos mb) * bpow eb) 1) as [Hsmall|Hbig].
    { (* the sum is at most 1 + c/2^52, with c the next integer above
         b * 2^52 *)
      set (B := IZR (Z.pos mb) * bpow eb) in *.
      set (c := up (B * bpow 52)).
      destruct (archimed (B * bpow 52)) as [Hc1 Hc2]. fold c in Hc1, Hc2.
      rewrite bpow_52 in Hc1, Hc2. rewrite bpow_m53 in Hnt.
      assert (Hcz : (1 <= c <= 2 ^ 52)%Z).
      { split.
        - assert (H : (0 < c)%Z) by (apply lt_IZR; lra). lia.
        - apply IZR_le_half. change (IZR (2 ^ 52)) with 4503599627370496. lra. }
      assert (HU : IZR c * bpow (-52) <= 2 * B).
      { rewrite bpow_m52.
        destruct (Rlt_le_dec (B * 4503599627370496) 1) as [Hlt1|Hge1].
        - assert (Hc : (c <= 1)%Z) by (apply IZR_le_half; lra).
          assert (c = 1%Z) as -> by lia. lra.
        - lra. }
      apply (kelly_chain _ _ mb eb (IZR (2 ^ 52 + c) * bpow (-52))
                         (IZR c * bpow (-52))); try assumption.
      - apply SFadd_below.
        + rewrite one_value. fold B. rewrite plus_IZR, bpow_m52.
          change (IZR (2 ^ 52)) with 4503599627370496. lra.
        + exists (2 ^ 52 + c)%Z, (-52)%Z. split; [reflexivity|].
          split; [lia|]. split; [lia|].
          apply Rle_lt_trans with (bpow 1); [|apply bpow_lt; lia].
          rewrite bpow_1, plus_IZR, bpow_m52.
          assert (IZR c <= 4503599627370496) by (apply IZR_le; lia).
          change (IZR (2 ^ 52)) with 4503599627370496. lra.
      - exists (2 ^ 52 + c)%Z, (-52)%Z. split; [reflexivity|].
        split; [lia|]. split; [lia|].
        apply Rle_lt_trans with (bpow 1); [|apply bpow_lt; lia].
        rewrite bpow_1, plus_IZR, bpow_m52.
        assert (IZR c <= 4503599627370496) by (apply IZR_le; lia).
        change (IZR (2 ^ 52)) with 4503599627370496. lra.
      - exists c, (-52)%Z. split; [reflexivity|].
        split; [lia|]. split; [lia|].
        apply Rle_lt_trans with (bpow 0); [|apply bpow_lt; lia].
        rewrite bpow_0, bpow_m52.
        assert (IZR c <= 4503599627370496) by (apply IZR_le; lia). lra.
      - rewrite plus_IZR, Rmult_plus_distr_r.
        change (IZR (2 ^ 52)) with (IZR (Z.pos 4503599627370496)).
        rewrite one_value. lra. }
    destruct (Z_le_gt_dec 2 eb) as [Hlarge|Hmid].
    { (* adding 1 changes nothing *)
      specialize (Hnb ltac:(lia)).
      assert (H4 : 4 <= bpow eb) by (rewrite <- bpow_2; apply bpow_le; lia).
      apply (kelly_chain _ _ mb eb (IZR (Z.pos mb) * bpow eb)
                         (IZR (Z.pos mb) * bpow eb)); try assumption.
      - apply SFadd_half.
        + rewrite one_value, bpow_add.
          apply Rle_trans with (IZR (Z.pos mb) * bpow eb); [|lra].
          apply Rmult_le_compat_r; lra.
        + rewrite one_value, Rmult_plus_distr_r. lra.
        + exact Hmbz.
        + lia.
        + destruct HgB as (k & g & _ & _ & _ & Hlt). exact Hlt.
      - lra.
      - lra. }
    { (* the sum is at most 2b *)
      assert (Hdouble : IZR (Z.pos mb) * bpow (eb + 1) = 2 * (IZR (Z.pos mb) * bpow eb)).
      { rewrite bpow_add, bpow_1. ring. }
      assert (Hg2 : on_grid (IZR (Z.pos mb) * bpow (eb + 1))).
      { exists (Z.pos mb), (eb + 1)%Z. split; [reflexivity|].
        split; [lia|]. split; [lia|].
        apply Rlt_le_trans with (bpow 53 * bpow (eb + 1)).
        - apply Rmult_lt_compat_r; [apply bpow_pos|exact Hmb].
        - rewrite <- bpow_add. apply bpow_le. lia. }
      apply (kelly_chain _ _ mb eb (IZR (Z.pos mb) * bpow (eb + 1))
                         (IZR (Z.pos mb) * bpow (eb + 1))); try assumption.
      - apply SFadd_below; [|exact Hg2]. rewrite one_value, Hdouble. lra.
      - lra.
      - rewrite Hdouble. lra. }
Qed.

(** Scaling by a multiplier [2^j] moves the bound to [2^(j+1)]. *)
Lemma scaled_below (raw m : float) (j : Z) :
  Prim2SF m = S754_finite false 4503599627370496 (j - 52) ->
  (-1000 <= j <= 1000)%Z ->
  sf_below (Prim2SF raw) 2 ->
  sf_below (Prim2SF (raw * m)%float) (bpow (j + 1)).
Proof.
  intros Hm Hj Hraw.
  pose proof (Prim2SF_valid raw) as Hvr. pose proof (Prim2SF_valid m) as Hvm.
  rewrite FloatAxioms.mul_spec. rewrite Hm in Hvm |- *.
  destruct Hraw as [Hn|(mr & er & Hr & Hle)].
  - left. apply (mul_not_positive _ _ Hn). reflexivity.
  - rewrite Hr in Hvr |- *. unfold SF64mul.
    cbn [SpecFloat.valid_binary] in Hvr, Hvm.
    apply SFmul_below; try assumption.
    + rewrite pow_value. replace (52 + (j - 52))%Z with j by lia.
      rewrite bpow_add, bpow_1. pose proof (bpow_pos j).
      replace (bpow j * 2) with (2 * bpow j) by ring.
      apply Rmult_le_compat_r; lra.
    + apply on_grid_pow. lia.
Qed.

(** The floor does not lift a result over a bound that is above the floor. *)
Lemma py_max_below (x c : float) (mc : positive) (ec : Z) :
  Prim2SF c = S754_finite false mc ec ->
  (0.01 <=? c)%float = true ->
  sf_below (Prim2SF x) (IZR (Z.pos mc) * bpow ec) ->
  (py_max 0.01 x <=? c)%float = true.
Proof.
  intros Hc Hfloor Hx. unfold py_max.
  destruct (0.01 <? x)%float eqn:Hlt; [|exact Hfloor].
  destruct Hx as [Hn|(mx & ex & Hx & Hle)].
  - apply not_positive_below_floor in Hn. congruence.
  - pose proof (Prim2SF_valid x) as Hvx. pose proof (Prim2SF_valid c) as Hvc.
    rewrite FloatAxioms.leb_spec, Hx, Hc. rewrite Hx in Hvx. rewrite Hc in Hvc.
    now apply SFleb_of_le.
Qed.

(** What [calculate] returns for a valid signal and the multiplier [2^j]
    is not above any number [c >= 2^(j+1)]. *)
Lemma calculate_result_below (p b m c : float) (j : Z) (mc : positive) (ec : Z) :
  valid_signal p b ->
  Prim2SF m = S754_finite false 4503599627370496 (j - 52) ->
  Prim2SF c = S754_finite false mc ec ->
  (-1000 <= j <= 1000)%Z ->
  bpow (j + 1) <= IZR (Z.pos mc) * bpow ec ->
  (0.01 <=? c)%float = true ->
  (py_max 0.01 (kelly_fraction p b * m) <=? c)%float = true.
Proof.
  intros Hsig Hm Hc Hj Hle Hfloor.
  apply (py_max_below _ c mc ec Hc Hfloor).
  apply sf_below_mono with (bpow (j + 1)); [|exact Hle].
  apply scaled_below; [exact Hm|exact Hj|].
  now apply raw_kelly_below.
Qed.

End KellyChain.

(** ** AdaptiveKelly: the range of the result *)
Section KellyCeiling.
Import AdaptiveKelly RiskSizerSpec.
#[local] Open Scope float_scope.

(** C1, as amended.  For a named preset and a valid signal the sizer returns
    a fraction that is at least 0.01, hence never zero or negative, and at
    most twice the multiplier: at most 0.5 with the conservative preset and
    at most 1 with the moderate one, so these two never go over full equity;
    with the aggressive preset the bound is 2, not 1.  The method applies no
    ceiling of its own: the Kelly fraction of a valid signal is at most 1 as
    a real number, but the rounded sum [b + 1] can carry up to twice [b], so
    the binary64 fraction can reach nearly 2. *)
Theorem calculate_bounds_by_preset
    (profile : string) (m : float) (mq : Q) (p b : float) (pq bq : Q) :
  named_preset profile = Some m ->
  named_preset_exact profile = Some mq ->
  valid_signal p b ->
  (0 <= pq <= 1)%Q -> (0 < bq)%Q ->
  (exists self r,
      new profile = Ok self /\
      multiplier self = Some m /\
      calculate p b self = (Ok r, self) /\
      (0.01 <=? r) = true /\ (0 <? r) = true /\
      (r <=? 2 * m) = true /\
      (profile <> "aggressive" -> (r <=? 1) = true)) /\
  (exists q, calculate_exact mq pq bq = Ok q /\ (1 # 100 <= q <= 1)%Q).
Proof.
  intros Hm Hmq Hsig Hp Hbq. split.
  - eexists _, _. split; [apply new_eq|].
    assert (Hmul : multiplier (set_multiplier (dict_get RISK_PROFILES profile 0.5) fresh)
                   = Some m).
    { simpl. now rewrite RISK_PROFILES_get, Hm. }
    split; [exact Hmul|]. split.
    + apply calculate_nonzero; [exact Hmul|].
      destruct Hsig as (_ & _ & Hb). now apply ltb_zero_neq.
    + split; [apply py_max_floor|]. split; [apply py_max_positive|].
      unfold named_preset in Hm.
      destruct (String.eqb_spec profile "conservative") as [Hc|Hc].
      { inversion Hm; subst m. split; [|intros _].
        - apply (calculate_result_below p b 0.25 (2 * 0.25) (-2)
                   4503599627370496 (-53)); try reflexivity; [exact Hsig|lia|].
          rewrite pow_value. apply bpow_le. lia.
        - apply (calculate_result_below p b 0.25 1 (-2)
                   4503599627370496 (-52)); try reflexivity; [exact Hsig|lia|].
          rewrite pow_value. apply bpow_le. lia. }
      destruct (String.eqb_spec profile "moderate") as [Hmo|Hmo].
      { inversion Hm; subst m. split; [|intros _].
        - apply (calculate_result_below p b 0.5 (2 * 0.5) (-1)
                   4503599627370496 (-52)); try reflexivity; [exact Hsig|lia|].
          rewrite pow_value. apply bpow_le. lia.
        - apply (calculate_result_below p b 0.5 1 (-1)
                   4503599627370496 (-52)); try reflexivity; [exact Hsig|lia|].
          rewrite pow_value. apply bpow_le. lia. }
      destruct (String.eqb_spec profile "aggressive") as [Ha|Ha];
        [|discriminate Hm].
      inversion Hm; subst m. split; [|intros Hne; contradiction].
      apply (calculate_result_below p b 1 (2 * 1) 0
               4503599627370496 (-51)); try reflexivity; [exact Hsig|lia|].
      rewrite pow_value. apply bpow_le. lia.
  - apply calculate_exact_range; [|exact Hp|exact Hbq].
    unfold named_preset_exact in Hmq.
    repeat match type of Hmq with
           | (if ?c then _ else _) = _ => destruct c
           end; inversion Hmq; subst; split; reflexivity || discriminate.
Qed.

(** The witness is the signal at which the aggressive preset passes 1:
    with the moderate preset the result stays under it. *)
Lemma calculate_bounds_by_preset_witness :
  (exists self r,
      new "moderate" = Ok self /\
      multiplier self = Some 0.5 /\
      calculate 1 1e-15 self = (Ok r, self) /\
      (0.01 <=? r) = true /\ (0 <? r) = true /\
      (r <=? 2 * 0.5) = true /\
      ("moderate" <> "aggressive" -> (r <=? 1) = true)) /\
  (exists q, calculate_exact (1 # 2) 1 (1 # 1000000000000000) = Ok q /\
             (1 # 100 <= q <= 1)%Q).
Proof.
  apply (calculate_bounds_by_preset "moderate" 0.5 (1 # 2)%Q 1 1e-15).
  - reflexivity.
  - reflexivity.
  - repeat split.
  - split; discriminate.
  - reflexivity.
Defined.

End KellyCeiling.

(** ** AdaptiveKelly: edge behaviour of [calculate] *)
Section KellyEdges.
Import AdaptiveKelly.
#[local] Open Scope float_scope.

(** X1.  A signal without edge is sized at the floor.  On an instance built
    by the constructor from any profile string, with a ratio above zero, if
    the numerator [p*(b+1) - 1] does not come out above zero, and that
    includes a NaN probability, then [calculate] returns exactly 0.01. *)
Theorem calculate_no_edge_gives_floor (profile : string) (p b : float) (self : t) :
  new profile = Ok self ->
  (0 <? b) = true ->
  (0 <? p * (b + 1) - 1) = false ->
  calculate p b self = (Ok 0.01, self).
Proof.
  intros Hnew Hb Hnum. rewrite new_eq in Hnew. injection Hnew as <-.
  rewrite (calculate_nonzero p b (dict_get RISK_PROFILES profile 0.5));
    [|reflexivity|now apply ltb_zero_neq].
  unfold py_max, RiskSizerSpec.kelly_fraction.
  rewrite not_positive_below_floor; [reflexivity|].
  rewrite FloatAxioms.mul_spec. apply mul_not_positive.
  - rewrite FloatAxioms.div_spec. apply div_not_positive.
    + now apply ltb_zero_not_positive.
    + now rewrite <- ltb_zero_positive.
  - rewrite <- ltb_zero_positive. apply multiplier_positive.
Qed.

Lemma calculate_no_edge_gives_floor_witness :
  calculate 0.5 1 (set_multiplier 0.25 fresh) = (Ok 0.01, set_multiplier 0.25 fresh).
Proof.
  apply (calculate_no_edge_gives_floor "conservative" 0.5 1); reflexivity.
Defined.

(** X2.  Whatever the arguments, NaN and the infinities included, and
    whatever the object, a fraction that [calculate] returns is a number:
    it is never NaN. *)
Theorem calculate_never_nan (p b r : float) (self self' : t) :
  calculate p b self = (Ok r, self') -> (r =? r) = true.
Proof.
  unfold calculate, py_bind, py_lift, get_multiplier, py_ret.
  destruct (truediv _ b); [|discriminate].
  destruct (multiplier self); [|discriminate].
  intros H. injection H as <- _.
  apply (leb_not_nan 0.01), py_max_floor.
Qed.

Lemma calculate_never_nan_witness : (0.01 =? 0.01) = true.
Proof.
  apply (calculate_never_nan nan infinity 0.01 (set_multiplier 1 fresh)
           (set_multiplier 1 fresh)).
  reflexivity.
Defined.

(** X3.  [calculate] raises [ZeroDivisionError] for the ratios 0.0 and -0.0
    and for no other: subnormal, infinite and NaN ratios are divided by. *)
Theorem calculate_raises_iff_zero (p b : float) (self : t) :
  fst (calculate p b self) = Raise ZeroDivisionError <-> b = 0 \/ b = (-0).
Proof.
  rewrite <- eqb_zero_cases. split.
  - unfold calculate, py_bind, py_lift, truediv, get_multiplier, py_ret.
    destruct (b =? 0); [reflexivity|].
    destruct (multiplier self); simpl; discriminate.
  - intros Hb. now rewrite calculate_zero.
Qed.

End KellyEdges.

(** ** FIXEngine: the handler at concrete messages, and the callbacks *)
Section ToAdminRuns.
Import FIXEngine.

Lemma toAdmin_other_type_witness :
  toAdmin as_written "FIX.4.4:QTS->CEX" (mkMessage {[ 35 := "0" ]} {[ 112 := PyStr "t" ]})
  = (Ok tt, mkMessage {[ 35 := "0" ]} {[ 112 := PyStr "t" ]}).
Proof.
  apply (toAdmin_other_type as_written "FIX.4.4:QTS->CEX" "0");
    [reflexivity | discriminate].
Defined.

Lemma toAdmin_frame_witness :
  header (snd (toAdmin (mkEnv (Some (fun _ => PyStr "u")) None) "s"
                 (mkMessage {[ 35 := "A" ]} {[ 98 := PyStr "0" ]})))
  = header (mkMessage {[ 35 := "A" ]} {[ 98 := PyStr "0" ]}) /\
  body (snd (toAdmin (mkEnv (Some (fun _ => PyStr "u")) None) "s"
               (mkMessage {[ 35 := "A" ]} {[ 98 := PyStr "0" ]}))) !! 98
  = body (mkMessage {[ 35 := "A" ]} {[ 98 := PyStr "0" ]}) !! 98.
Proof.
  apply (toAdmin_frame (mkEnv (Some (fun _ => PyStr "u")) None) "s"
           (mkMessage {[ 35 := "A" ]} {[ 98 := PyStr "0" ]}) 98); discriminate.
Defined.

Lemma toAdmin_logon_bound_witness :
  toAdmin (mkEnv (Some (fun name => PyStr name)) (Some (fun v => Ok v))) "s"
    (mkMessage {[ 35 := "A" ]} ∅)
  = (Ok tt, {| header := {[ 35 := "A" ]};
               body := <[554 := PyStr "FIX_PASSWORD"]>
                         (<[553 := PyStr "FIX_USERNAME"]> ∅) |}).
Proof.
  exact (toAdmin_logon_bound (fun name => PyStr name) (fun v => Ok v)
           "FIX_USERNAME" "FIX_PASSWORD" "s" (mkMessage {[ 35 := "A" ]} ∅)
           eq_refl eq_refl eq_refl).
Defined.

End ToAdminRuns.

(** ** QuantumTradingSystem.run: what ends the loop *)
Section RunEnds.
Import QuantumTradingSystem.

Lemma main_loop_raises (env : Env) (fuel i : nat) (trace : list Event) (e : PyExc) :
  sleep env i = Some e ->
  exists e', main_loop env (S fuel) i trace = (Propagated e', trace).
Proof.
  intros He. simpl. rewrite He.
  destruct (isinstance_Exception e); eexists; reflexivity.
Qed.

Lemma main_loop_still_running (env : Env) (fuel i : nat) (trace : list Event) :
  fst (main_loop env fuel i trace) = StillRunning <->
  forall j, (j < fuel)%nat -> sleep env (i + j) = None.
Proof.
  revert i trace. induction fuel as [|fuel IH]; intros i trace.
  - simpl. split; [intros _ j Hj; lia | reflexivity].
  - split.
    + intros Hrun j Hj.
      destruct (sleep env i) as [e|] eqn:Hi.
      * destruct (main_loop_raises env fuel i trace e Hi) as [e' He'].
        rewrite He' in Hrun. discriminate.
      * simpl in Hrun. rewrite Hi in Hrun.
        destruct j as [|j]; [now rewrite Nat.add_0_r|].
        replace (i + S j)%nat with (S i + j)%nat by lia.
        apply (proj1 (IH (S i) (trace ++ [Slept])) Hrun). lia.
    + intros Hs. simpl.
      pose proof (Hs 0%nat ltac:(lia)) as H0. rewrite Nat.add_0_r in H0.
      rewrite H0. apply IH. intros j Hj.
      replace (S i + j)%nat with (i + S j)%nat by lia. apply Hs. lia.
Qed.

(** X7.  Once [initiator.start()] has returned, [run] is still looping
    after [fuel] iterations exactly when none of their [await]s raised:
    the handler never keeps the loop alive, and nothing else ends it. *)
Theorem run_still_running_iff (env : Env) (fuel : nat) :
  initiator_start env = None ->
  (fst (run env fuel) = StillRunning <->
   forall i, (i < fuel)%nat -> sleep env i = None).
Proof.
  intros Hstart. unfold run. rewrite Hstart.
  apply (main_loop_still_running env fuel 0).
Qed.

Lemma run_still_running_iff_witness :
  fst (run third_sleep_fails 2) = StillRunning <->
  forall i, (i < 2)%nat -> sleep third_sleep_fails i = None.
Proof.
  apply (run_still_running_iff third_sleep_fails 2). reflexivity.
Defined.

(** X8.  An exception that is no instance of [Exception], a cancellation or
    a keyboard interrupt, leaves [run] as it is: the handler is not entered,
    and the trace holds the start-up steps and the sleeps before it. *)
Theorem run_base_exception_propagates (env : Env) (n fuel : nat) (e : PyExc) :
  initiator_start env = None ->
  (forall i, (i < n)%nat -> sleep env i = None) ->
  sleep env n = Some e ->
  isinstance_Exception e = false ->
  (n < fuel)%nat ->
  run env fuel =
  (Propagated e, [TaskCreated "feed"; InitiatorStarted] ++ repeat Slept n).
Proof.
  intros Hstart Hok Hraise Hexc Hfuel. unfold run. rewrite Hstart.
  replace fuel with (n + S (fuel - S n))%nat by lia.
  rewrite main_loop_sleeps by (intros j Hj; now apply Hok).
  simpl. now rewrite Hraise, Hexc.
Qed.

Lemma run_base_exception_propagates_witness :
  run cancelled_at_once 3 =
  (Propagated CancelledError, [TaskCreated "feed"; InitiatorStarted]).
Proof.
  apply (run_base_exception_propagates cancelled_at_once 0 3 CancelledError);
    try reflexivity; intros; lia.
Defined.

End RunEnds.

(** ** EntropyHarvester.feed *)
Section Feed.
Import EntropyHarvester.

(** Running [n + m] iterations is running [n] and then, if the loop is still
    going, [m] more. *)
Lemma feed_add (env : Env) (n m i : nat) (w : World) :
  feed env (n + m) i w =
  match feed env n i w with
  | (None, w') => feed env m (i + n) w'
  | ended => ended
  end.
Proof.
  revert i w. induction n as [|n IH]; intros i w; simpl.
  - now rewrite Nat.add_0_r.
  - destruct (iteration env i w) as [[[]|e] w']; [|reflexivity].
    rewrite IH. now replace (S i + n)%nat with (i + S n)%nat by lia.
Qed.

(** One iteration in which no refresh is due. *)
Lemma iteration_quiet (env : Env) (urandom : nat -> nat -> list Byte.byte)
    (i : nat) (w : World) :
  os_urandom env = Some urandom ->
  (now env (snd w) - last_refresh (fst w) <= five_minutes)%Z ->
  sleep env i = None ->
  iteration env i w =
  (Ok tt, ({| pool := pool (fst w) ++ gathered env urandom i;
              last_refresh := last_refresh (fst w) |}, S (snd w))).
Proof.
  intros Hos Hclock Hsleep.
  unfold iteration, py_bind, pool_extend, global_os, datetime_now, py_gets,
    py_modify, await_sleep, py_ret, gathered.
  rewrite Hos, Hsleep. simpl.
  destruct (Z.ltb_spec five_minutes (now env (snd w) - last_refresh (fst w)));
    [lia|].
  now rewrite <- app_assoc.
Qed.

Lemma feed_quiet (env : Env) (urandom : nat -> nat -> list Byte.byte)
    (n i : nat) (w : World) :
  os_urandom env = Some urandom ->
  (forall j, (j < n)%nat ->
     (now env (snd w + j) - last_refresh (fst w) <= five_minutes)%Z) ->
  (forall j, (j < n)%nat -> sleep env (i + j) = None) ->
  feed env n i w =
  (None, ({| pool := pool (fst w) ++ concat (map (gathered env urandom) (seq i n));
             last_refresh := last_refresh (fst w) |}, (snd w + n)%nat)).
Proof.
  intros Hos. revert i w. induction n as [|n IH]; intros i [self reads] Hclock Hsleep.
  - simpl. rewrite app_nil_r, Nat.add_0_r. now destruct self.
  - simpl feed.
    pose proof (Hclock 0%nat ltac:(lia)) as Hc0.
    pose proof (Hsleep 0%nat ltac:(lia)) as Hs0.
    rewrite Nat.add_0_r in Hc0, Hs0.
    rewrite (iteration_quiet env urandom i _ Hos Hc0 Hs0).
    rewrite IH; simpl.
    + rewrite <- app_assoc. do 3 f_equal. lia.
    + intros j Hj. specialize (Hclock (S j) ltac:(lia)). simpl in Hclock.
      now replace (S (reads + j))%nat with (reads + S j)%nat by lia.
    + intros j Hj. specialize (Hsleep (S j) ltac:(lia)).
      now replace (S (i + j))%nat with (i + S j)%nat by lia.
Qed.

Lemma length_gathered (env : Env) (urandom : nat -> nat -> list Byte.byte)
    (i n : nat) :
  (forall j k, length (urandom j k) = k) ->
  (64 * n <= length (concat (map (gathered env urandom) (seq i n))))%nat.
Proof.
  intros Hlen. revert i. induction n as [|n IH]; intros i; simpl; [lia|].
  rewrite length_app. unfold gathered at 1. rewrite length_app, Hlen.
  specialize (IH (S i)). lia.
Qed.

(** X9.  As the file stands, with [os] unbound, [feed] ends in its first
    iteration with [NameError]: the pool has got the one block from
    [quantumrandom.binary] and nothing else, the clock was not read and no
    refresh took place. *)
Theorem feed_as_written_raises (env : Env) (fuel i : nat) (w : World) :
  os_urandom env = None ->
  feed env (S fuel) i w =
  (Some (NameError "os"),
   ({| pool := pool (fst w) ++ binary env i;
       last_refresh := last_refresh (fst w) |}, snd w)).
Proof.
  intros Hos. simpl.
  unfold iteration, py_bind, pool_extend, global_os, py_modify, py_raise.
  now rewrite Hos.
Qed.

(** X10.  With [os] bound, as long as the clock reads at most five minutes
    past [last_refresh] and no [await] raises, the pool only grows: after
    [n] iterations it is the old pool followed by every block gathered, at
    least 64 bytes longer per iteration, and [last_refresh] has not moved. *)
Theorem feed_pool_grows (env : Env) (urandom : nat -> nat -> list Byte.byte)
    (n i : nat) (w : World) :
  os_urandom env = Some urandom ->
  (forall j k, length (urandom j k) = k) ->
  (forall j, (j < n)%nat ->
     (now env (snd w + j) - last_refresh (fst w) <= five_minutes)%Z) ->
  (forall j, (j < n)%nat -> sleep env (i + j) = None) ->
  exists w',
    feed env n i w = (None, w') /\
    pool (fst w') = pool (fst w) ++ concat (map (gathered env urandom) (seq i n)) /\
    (length (pool (fst w)) + 64 * n <= length (pool (fst w')))%nat /\
    last_refresh (fst w') = last_refresh (fst w).
Proof.
  intros Hos Hlen Hclock Hsleep. eexists. split.
  - apply (feed_quiet env urandom n i w Hos Hclock Hsleep).
  - simpl. repeat split. rewrite length_app.
    pose proof (length_gathered env urandom i n Hlen). lia.
Qed.

Lemma feed_as_written_raises_witness :
  feed (ticking false false 10000) 3 0 (new (ticking false false 10000)) =
  (Some (NameError "os"), ({| pool := repeat Byte.x00 64; last_refresh := 0 |}, 1%nat)).
Proof.
  apply (feed_as_written_raises (ticking false false 10000) 2 0
           (new (ticking false false 10000))).
  reflexivity.
Defined.

Lemma feed_pool_grows_witness :
  exists w',
    feed (ticking true false 10000) 3 0 (new (ticking true false 10000)) = (None, w') /\
    pool (fst w') =
      [] ++ concat (map (gathered (ticking true false 10000)
                           (fun _ n => repeat Byte.x00 n)) (seq 0 3)) /\
    (0 + 64 * 3 <= length (pool (fst w')))%nat /\
    last_refresh (fst w') = 0%Z.
Proof.
  apply (feed_pool_grows (ticking true false 10000) (fun _ n => repeat Byte.x00 n)
           3 0 (new (ticking true false 10000))).
  - reflexivity.
  - intros j k. apply repeat_length.
  - intros j Hj. unfold five_minutes. simpl. lia.
  - reflexivity.
Defined.

(** The blocks of [n + 1] iterations are those of [n] and one more. *)
Lemma gathered_snoc (env : Env) (urandom : nat -> nat -> list Byte.byte) (i n : nat) :
  concat (map (gathered env urandom) (seq i (S n))) =
  concat (map (gathered env urandom) (seq i n)) ++ gathered env urandom (i + n).
Proof.
  rewrite seq_S, map_app, concat_app. simpl. now rewrite app_nil_r.
Qed.

(** X11.  With [os] and [hashlib] bound, the first iteration that reads the
    clock more than five minutes past [last_refresh] replaces the pool by
    the digest of everything gathered so far, that iteration's blocks
    included, and sets [last_refresh] to a second reading of the clock. *)
Theorem feed_refresh_replaces_pool (env : Env)
    (urandom : nat -> nat -> list Byte.byte)
    (sha3_256 : list Byte.byte -> list Byte.byte) (n i : nat) (w : World) :
  os_urandom env = Some urandom ->
  hashlib_sha3_256 env = Some sha3_256 ->
  (forall j, (j < n)%nat ->
     (now env (snd w + j) - last_refresh (fst w) <= five_minutes)%Z) ->
  (five_minutes < now env (snd w + n) - last_refresh (fst w))%Z ->
  (forall j, (j <= n)%nat -> sleep env (i + j) = None) ->
  feed env (n + 1) i w =
  (None,
   ({| pool := sha3_256 (pool (fst w) ++
                         concat (map (gathered env urandom) (seq i (S n))));
       last_refresh := now env (S (snd w + n)) |}, S (S (snd w + n)))).
Proof.
  intros Hos Hsha Hquiet Hdue Hsleep.
  rewrite gathered_snoc.
  rewrite feed_add, (feed_quiet env urandom n i w Hos Hquiet)
    by (intros j Hj; apply Hsleep; lia).
  apply Z.ltb_lt in Hdue.
  unfold feed, iteration, py_bind, pool_extend, global_os, global_hashlib,
    datetime_now, py_gets, py_modify, await_sleep, set_pool, set_last_refresh,
    py_ret, gathered at 2.
  rewrite Hos, Hsha, (Hsleep n) by lia. cbn [fst snd pool last_refresh].
  rewrite Hdue. cbn [fst snd pool last_refresh].
  now rewrite <- !app_assoc.
Qed.

Lemma feed_refresh_replaces_pool_witness :
  feed (ticking true true 200000000) (1 + 1) 0 (new (ticking true true 200000000)) =
  (None,
   ({| pool := repeat Byte.x00 32; last_refresh := 3 * 200000000 |}, 4%nat)).
Proof.
  apply (feed_refresh_replaces_pool (ticking true true 200000000)
           (fun _ n => repeat Byte.x00 n) (fun _ => repeat Byte.x00 32)
           1 0 (new (ticking true true 200000000))).
  - reflexivity.
  - reflexivity.
  - intros j Hj. assert (j = 0)%nat as -> by lia. discriminate.
  - reflexivity.
  - reflexivity.
Defined.

(** X12.  With [os] bound and [hashlib] not, [feed] gathers until the first
    refresh falls due and ends there with [NameError]: the pool keeps every
    byte gathered, that iteration's included, and [last_refresh] stays. *)
Theorem feed_refresh_raises_without_hashlib (env : Env)
    (urandom : nat -> nat -> list Byte.byte) (n fuel i : nat) (w : World) :
  os_urandom env = Some urandom ->
  hashlib_sha3_256 env = None ->
  (forall j, (j < n)%nat ->
     (now env (snd w + j) - last_refresh (fst w) <= five_minutes)%Z) ->
  (five_minutes < now env (snd w + n) - last_refresh (fst w))%Z ->
  (forall j, (j < n)%nat -> sleep env (i + j) = None) ->
  feed env (n + S fuel) i w =
  (Some (NameError "hashlib"),
   ({| pool := pool (fst w) ++ concat (map (gathered env urandom) (seq i (S n)));
       last_refresh := last_refresh (fst w) |}, S (snd w + n))).
Proof.
  intros Hos Hsha Hquiet Hdue Hsleep.
  rewrite gathered_snoc.
  rewrite feed_add, (feed_quiet env urandom n i w Hos Hquiet Hsleep).
  apply Z.ltb_lt in Hdue.
  cbn [feed].
  unfold iteration, py_bind, pool_extend, global_os, global_hashlib,
    datetime_now, py_gets, py_modify, py_raise, py_ret, gathered at 2.
  rewrite Hos, Hsha. cbn [fst snd pool last_refresh].
  rewrite Hdue. cbn [fst snd pool last_refresh].
  now rewrite <- !app_assoc.
Qed.

Lemma feed_refresh_raises_without_hashlib_witness :
  feed (ticking true false 200000000) (1 + 3) 0 (new (ticking true false 200000000)) =
  (Some (NameError "hashlib"),
   ({| pool := [] ++ concat (map (gathered (ticking true false 200000000)
                                    (fun _ n => repeat Byte.x00 n)) (seq 0 2));
       last_refresh := 0 |}, 3%nat)).
Proof.
  apply (feed_refresh_raises_without_hashlib (ticking true false 200000000)
           (fun _ n => repeat Byte.x00 n) 1 2 0
           (new (ticking true false 200000000))).
  - reflexivity.
  - reflexivity.
  - intros j Hj. assert (j = 0)%nat as -> by lia. discriminate.
  - reflexivity.
  - reflexivity.
Defined.

End Feed.

(** ** QuantumTradingSystem: construction and the program *)
Section Startup.
Import QuantumTradingSystem.

(** X13.  The system is constructed exactly when the four quickfix
    constructors return and [mt5.initialize()] reports success, whatever
    the risk profile string; it then holds an empty entropy pool and a sizer
    whose multiplier is the profile's, 0.5 for an unknown one. *)
Theorem system_constructed_iff (clock : EntropyHarvester.Env)
    (quickfix : FIXEngine.Quickfix) (terminal : MT5Bridge.Terminal)
    (risk_profile : string) :
  ((exists qts, __init__ clock quickfix terminal risk_profile = Ok qts) <->
   FIXEngine.__init__ quickfix = Ok FIXEngine.Engine /\
   MT5Bridge.initialize terminal = true) /\
  (forall qts, __init__ clock quickfix terminal risk_profile = Ok qts ->
     EntropyHarvester.pool (fst (entropy qts)) = [] /\
     AdaptiveKelly.multiplier (risk qts) =
       Some (dict_get AdaptiveKelly.RISK_PROFILES risk_profile 0.5%float)).
Proof.
  unfold __init__, MT5Bridge.__init__. rewrite new_eq.
  destruct (FIXEngine.__init__ quickfix) as [[]|e];
    destruct (MT5Bridge.initialize terminal); simpl; split;
    try (split; [intros [qts H]; discriminate | intros [H1 H2]; discriminate]);
    try (intros qts H; discriminate).
  - split; [intros _; split; reflexivity | intros _; eexists; reflexivity].
  - intros qts H. injection H as <-. split; reflexivity.
Qed.

(** X14.  The program enters [run] only with a constructed system.  When a
    quickfix constructor raises, that exception ends the program; when the
    terminal is down, [ConnectionError] does; in both cases no task was
    created and no session started.  Otherwise the program is [run]. *)
Theorem main_outcome (clock : EntropyHarvester.Env)
    (quickfix : FIXEngine.Quickfix) (terminal : MT5Bridge.Terminal)
    (env : Env) (fuel : nat) :
  match FIXEngine.__init__ quickfix with
  | Raise e => main clock quickfix terminal env fuel = (Propagated e, [])
  | Ok _ =>
      if MT5Bridge.initialize terminal
      then main clock quickfix terminal env fuel = run env fuel
      else main clock quickfix terminal env fuel =
           (Propagated (ConnectionError "MT5 Terminal Not Connected"), [])
  end.
Proof.
  unfold main, __init__, MT5Bridge.__init__. rewrite new_eq.
  destruct (FIXEngine.__init__ quickfix) as [[]|e]; [|reflexivity].
  destruct (MT5Bridge.initialize terminal); reflexivity.
Qed.

End Startup.
